(** * Quiz Master: the backend (backend.py) and the generation pipeline of
    the Streamlit script (app.py), as a shallow embedding.

    Python values are the constructors of [pyval]; a [dict] is a [gmap] with
    string keys; an exception is a value of [exn] carried by [Raise].  The
    collaborators the code calls into (PyPDF2, the text splitter, the
    chat model, [json.loads]) are Section variables: every theorem holds
    for whatever they return.

    A [str] is a Rocq [string] read as a sequence of ASCII code points; the
    methods [strip], [upper], [find], [rfind] and the [re] pattern class
    [\s] are given on that range. *)

From Stdlib Require Import ZArith String Ascii List Bool Lia.
From Stdlib Require Import Floats.SpecFloat.
From stdpp Require Import base option gmap strings list pretty.

Open Scope string_scope.
Open Scope Z_scope.

(** ** Python values, exceptions, results *)

Module Py.

#[warnings="-register-all"]
Inductive pyval : Type :=
| PNone
| PBool (b : bool)
| PInt (z : Z)
| PFloat (f : spec_float)
| PStr (s : string)
| PList (l : list pyval)
| PDict (d : gmap string pyval).

Inductive exn : Type :=
| ValueError (msg : string)
| TypeError
| KeyError (key : string)
| AttributeError
| NameError (name : string)
| ExternalError (what : string).

Inductive result (A : Type) : Type :=
| Ok (a : A)
| Raise (e : exn).

Arguments Ok {A} a.
Arguments Raise {A} e.

Definition bind {A B : Type} (r : result A) (k : A -> result B) : result B :=
  match r with
  | Ok a => k a
  | Raise e => Raise e
  end.

Definition raises {A : Type} (r : result A) : Prop :=
  exists e, r = Raise e.

(** [for x in l: body], the body raising or falling through. *)
Fixpoint for_each {A : Type} (l : list A) (body : A -> result unit) : result unit :=
  match l with
  | [] => Ok tt
  | x :: rest => bind (body x) (fun _ => for_each rest body)
  end.

(** The same loop when the body updates local variables, threaded as [s]. *)
Fixpoint for_each_acc {A S : Type} (l : list A) (body : A -> S -> result S) (s : S) : result S :=
  match l with
  | [] => Ok s
  | x :: rest => bind (body x s) (for_each_acc rest body)
  end.

(** [enumerate(l)], counting from [i]. *)
Fixpoint enumerate_from {A : Type} (i : nat) (l : list A) : list (nat * A) :=
  match l with
  | [] => []
  | x :: rest => (i, x) :: enumerate_from (S i) rest
  end.

Definition enumerate {A : Type} (l : list A) : list (nat * A) := enumerate_from 0 l.

(** *** str *)

Definition isspace (c : ascii) : bool :=
  let n := nat_of_ascii c in
  ((9 <=? n)%nat && (n <=? 13)%nat) || ((28 <=? n)%nat && (n <=? 32)%nat).

Definition upper_char (c : ascii) : ascii :=
  let n := nat_of_ascii c in
  if ((97 <=? n)%nat && (n <=? 122)%nat) then ascii_of_nat (n - 32) else c.

Fixpoint upper (s : string) : string :=
  match s with
  | EmptyString => EmptyString
  | String c s' => String (upper_char c) (upper s')
  end.

Fixpoint all_space (s : string) : bool :=
  match s with
  | EmptyString => true
  | String c s' => isspace c && all_space s'
  end.

Fixpoint lstrip (s : string) : string :=
  match s with
  | EmptyString => EmptyString
  | String c s' => if isspace c then lstrip s' else s
  end.

Fixpoint rstrip (s : string) : string :=
  match s with
  | EmptyString => EmptyString
  | String c s' => if all_space s then EmptyString else String c (rstrip s')
  end.

Definition strip (s : string) : string := rstrip (lstrip s).

(** [s.find(c)] and [s.rfind(c)] for a one-character needle: the index of
    the first (last) occurrence, [-1] when there is none. *)
Fixpoint find (s : string) (c : ascii) : Z :=
  match s with
  | EmptyString => -1
  | String a s' =>
      if Ascii.eqb a c then 0
      else let r := find s' c in if r <? 0 then -1 else r + 1
  end.

Fixpoint rfind (s : string) (c : ascii) : Z :=
  match s with
  | EmptyString => -1
  | String a s' =>
      let r := rfind s' c in
      if 0 <=? r then r + 1
      else if Ascii.eqb a c then 0 else -1
  end.

(** [s[start:stop]]: negative bounds count from the end, and both are
    clamped to the string. *)
Definition slice_bound (len i : Z) : Z :=
  if i <? 0 then Z.max 0 (i + len) else Z.min i len.

Definition slice (s : string) (start stop : Z) : string :=
  let len := Z.of_nat (String.length s) in
  let a := slice_bound len start in
  let b := slice_bound len stop in
  substring (Z.to_nat a) (Z.to_nat (b - a)) s.

(** [sep.join(l)] *)
Fixpoint join (sep : string) (l : list string) : string :=
  match l with
  | [] => ""
  | x :: xs =>
      match xs with
      | [] => x
      | _ :: _ => x +:+ sep +:+ join sep xs
      end
  end.

(** [sub in s] for strings. *)
Fixpoint is_substring (sub s : string) : bool :=
  String.prefix sub s ||
  match s with
  | EmptyString => false
  | String _ s' => is_substring sub s'
  end.

(** *** Operators on values *)

Definition str_eq (v : pyval) (s : string) : bool :=
  match v with
  | PStr t => String.eqb t s
  | _ => false
  end.

(** [PStr key in v]: key membership for a dict, element membership for a
    list, substring for a str, [TypeError] for what is not a container. *)
Definition contains (v : pyval) (key : string) : result bool :=
  match v with
  | PDict d => Ok (bool_decide (is_Some (d !! key)))
  | PList l => Ok (existsb (fun x => str_eq x key) l)
  | PStr s => Ok (is_substring key s)
  | _ => Raise TypeError
  end.

(** [v[PStr key]]: only a dict can be indexed by a str. *)
Definition getitem (v : pyval) (key : string) : result pyval :=
  match v with
  | PDict d =>
      match d !! key with
      | Some x => Ok x
      | None => Raise (KeyError key)
      end
  | _ => Raise TypeError
  end.

Definition is_list (v : pyval) : bool :=
  match v with PList _ => true | _ => false end.

Definition is_dict (v : pyval) : bool :=
  match v with PDict _ => true | _ => false end.

(** The elements [for x in v] runs over: the items of a list, the keys of a
    dict (in the order of [map_to_list], the insertion order not being
    kept by [gmap]), the characters of a str. *)
Definition iterate (v : pyval) : result (list pyval) :=
  match v with
  | PList l => Ok l
  | PDict d => Ok (map (fun kv => PStr (fst kv)) (map_to_list d))
  | PStr s => Ok (map (fun c => PStr (String c "")) (list_ascii_of_string s))
  | _ => Raise TypeError
  end.

(** [v.strip()] and [v.upper()]: methods of str only. *)
Definition method_strip (v : pyval) : result string :=
  match v with
  | PStr s => Ok (strip s)
  | _ => Raise AttributeError
  end.

(** [len(v)] *)
Definition len (l : list pyval) : Z := Z.of_nat (length l).

(** [len(v)] for a value: a list, a dict and a str have a length. *)
Definition len_of (v : pyval) : result Z :=
  match v with
  | PList l => Ok (len l)
  | PDict d => Ok (Z.of_nat (size d))
  | PStr s => Ok (Z.of_nat (String.length s))
  | _ => Raise TypeError
  end.

(** [str(n)] and the [{n}] of an f-string. *)
Definition str_of_int (n : Z) : string := pretty n.
Definition str_of_index (i : nat) : string := pretty i.

End Py.

Export Py.

Declare Scope py_scope.
Notation "'let*' x ':=' e 'in' k" := (bind e (fun x => k))
  (at level 10, x name, e at level 100, k at level 200) : py_scope.
Open Scope py_scope.

(** ** The fragment of [re] the backend uses

    A pattern is a sequence of items: one character of a class, a greedy
    star over a class, and [$].  [match_here] is the backtracking matcher
    anchored at the start of its input and returns the matched text;
    [search] tries every start position from the left, as [re.search]. *)

Module Re.

Inductive item : Type :=
| One (cls : ascii -> bool)
| Star (cls : ascii -> bool)
| Eol.

Definition pattern : Type := list item.

(** [$] holds at the end of the string and before a final newline. *)
Definition at_eol (s : string) : bool :=
  match s with
  | EmptyString => true
  | String c EmptyString => Ascii.eqb c "010"%char
  | String _ (String _ _) => false
  end.

Fixpoint match_here (p : pattern) (s : string) : option string :=
  match p with
  | [] => Some EmptyString
  | One cls :: p' =>
      match s with
      | String c s' => if cls c then String c <$> match_here p' s' else None
      | EmptyString => None
      end
  | Star cls :: p' =>
      (fix star (s : string) : option string :=
         match s with
         | String c s' =>
             if cls c then
               match star s' with
               | Some m => Some (String c m)
               | None => match_here p' s
               end
             else match_here p' s
         | EmptyString => match_here p' s
         end) s
  | Eol :: p' => if at_eol s then match_here p' s else None
  end.

Fixpoint search (p : pattern) (s : string) : option string :=
  match match_here p s with
  | Some m => Some m
  | None =>
      match s with
      | String _ s' => search p s'
      | EmptyString => None
      end
  end.

Definition char (c : ascii) : ascii -> bool := Ascii.eqb c.
Definition space : ascii -> bool := isspace.
Definition non_space : ascii -> bool := fun c => negb (isspace c).
Definition either (f g : ascii -> bool) : ascii -> bool := fun c => f c || g c.

End Re.

(** ** backend.py *)

Module Backend.

(** The double quote, for the messages that carry one. *)
Definition dq : string := String (ascii_of_nat 34) EmptyString.

Definition truthy (s : string) : bool := negb (String.eqb s "").

Section Collaborators.

(** [PdfReader(file).pages], each page with what its [extract_text()]
    gives; the splitter behind [chunk_text]; [LLMChain(...).run] for a model
    name, a temperature and the per-level count of the prompt, applied to
    [content] and [n_per_level]; [json.loads]. *)
Variable pdf : Type.
Variable PdfReader : pdf -> result (list (result string)).
Variable split_text : Z -> Z -> string -> result (list string).
Variable chain_run : string -> spec_float -> Z -> string -> string -> result string.
Variable json_loads : string -> result pyval.

(** *** PDF processing *)

Definition extract_pages (pages : list (result string)) : result (list string) :=
  for_each_acc pages
    (fun page text =>
       let* page_text := page in
       if truthy page_text then Ok (text ++ [page_text])%list else Ok text)
    [].

Definition extract_text_from_pdf (file : pdf) : result string :=
  let* pages := PdfReader file in
  let* text := extract_pages pages in
  Ok (join (String "010"%char "") text).

Definition chunk_text (text : string) (chunk_size overlap : Z) : result (list string) :=
  split_text chunk_size overlap text.

(** *** JSON helpers *)

(** The pattern [\{[\s\S]*\}\s*$]. *)
Definition json_block_re : Re.pattern :=
  [ Re.One (Re.char "{"%char);
    Re.Star (Re.either Re.space Re.non_space);
    Re.One (Re.char "}"%char);
    Re.Star Re.space;
    Re.Eol ].

Definition _extract_json_block (text : string) : result string :=
  match Re.search json_block_re (strip text) with
  | None =>
      let start := find text "{"%char in
      let end_ := rfind text "}"%char in
      if (start =? -1) || (end_ =? -1) || (end_ <=? start) then
        Raise (ValueError "No JSON object found in model output.")
      else Ok (slice text start (end_ + 1))
  | Some m => Ok m
  end.

Definition levels : list string := ["basic"; "intermediate"; "hard"].
Definition question_keys : list string := ["question"; "options"; "correct"; "explanation"].
Definition option_keys : list string := ["A"; "B"; "C"; "D"].

Definition at_index (level : string) (idx : nat) : string :=
  level +:+ "[" +:+ str_of_index idx +:+ "]".

Definition msg_missing_level (level : string) : string :=
  "Missing or invalid " +:+ dq +:+ level +:+ dq +:+ " list in quiz JSON.".
Definition msg_wrong_count (level : string) (n_per_level got : Z) : string :=
  dq +:+ level +:+ dq +:+ " must have exactly " +:+ str_of_int n_per_level
     +:+ " questions; got " +:+ str_of_int got +:+ ".".
Definition msg_not_object (level : string) (idx : nat) : string :=
  at_index level idx +:+ " is not an object.".
Definition msg_missing_key (level : string) (idx : nat) (key : string) : string :=
  "Missing key " +:+ dq +:+ key +:+ dq +:+ " in " +:+ at_index level idx +:+ ".".
Definition msg_options_not_object (level : string) (idx : nat) : string :=
  at_index level idx +:+ ".options must be an object.".
Definition msg_missing_option (level : string) (idx : nat) (k : string) : string :=
  "Missing option " +:+ dq +:+ k +:+ dq +:+ " in " +:+ at_index level idx +:+ ".options.".
Definition msg_invalid_correct (level : string) (idx : nat) : string :=
  "Invalid correct value in " +:+ at_index level idx +:+ ".".

(** [for key in keys: if key not in v: raise ValueError(msg key)] *)
Definition require_keys (v : pyval) (keys : list string) (msg : string -> string) : result unit :=
  for_each keys
    (fun key =>
       let* present := contains v key in
       if negb present then Raise (ValueError (msg key)) else Ok tt).

(** The body of the loop over [enumerate(data[level])]. *)
Definition check_question (level : string) (iq : nat * pyval) : result unit :=
  let idx := fst iq in
  let q := snd iq in
  if negb (is_dict q) then Raise (ValueError (msg_not_object level idx))
  else
    let* _ := require_keys q question_keys (msg_missing_key level idx) in
    let* options := getitem q "options" in
    if negb (is_dict options) then Raise (ValueError (msg_options_not_object level idx))
    else
      let* _ := require_keys options option_keys (msg_missing_option level idx) in
      let* correct := getitem q "correct" in
      if negb (existsb (str_eq correct) option_keys) then
        Raise (ValueError (msg_invalid_correct level idx))
      else Ok tt.

(** The body of the loop over the three levels. *)
Definition check_level (data : pyval) (n_per_level : Z) (level : string) : result unit :=
  let* present := contains data level in
  if negb present then Raise (ValueError (msg_missing_level level))
  else
    let* v := getitem data level in
    match v with
    | PList qs =>
        if negb (len qs =? n_per_level) then
          Raise (ValueError (msg_wrong_count level n_per_level (len qs)))
        else for_each (enumerate qs) (check_question level)
    | _ => Raise (ValueError (msg_missing_level level))
    end.

Definition _validate_quiz_schema (data : pyval) (n_per_level : Z) : result unit :=
  for_each levels (check_level data n_per_level).

(** *** Public API *)

Definition generate_quiz_from_text (content : string) (questions_per_level : Z)
    (model_name : string) (temperature : spec_float) : result pyval :=
  let* raw := chain_run model_name temperature questions_per_level
                content (str_of_int questions_per_level) in
  let* json_str := _extract_json_block raw in
  let* data := json_loads json_str in
  let* _ := _validate_quiz_schema data questions_per_level in
  Ok data.

Definition answer_key (level : string) (i : nat) : string :=
  level +:+ "_" +:+ str_of_index i.

Definition feedback_entry (question : pyval) (result_ : string) (explanation : pyval) : pyval :=
  PDict (<["question" := question]>
         (<["result" := PStr result_]>
          (<["explanation" := explanation]> ∅))).

(** The body of the inner loop of [evaluate_answers]; [acc] is
    [(score, feedback)]. *)
Definition evaluate_question (user_answers : gmap string pyval) (level : string)
    (iq : nat * pyval) (acc : Z * list pyval) : result (Z * list pyval) :=
  let i := fst iq in
  let question := snd iq in
  let* c := getitem question "correct" in
  let* c_stripped := method_strip c in
  let correct := upper c_stripped in
  let* a_stripped := method_strip (default (PStr "") (user_answers !! answer_key level i)) in
  let user_answer := upper a_stripped in
  let score_result :=
    if String.eqb user_answer correct then (fst acc + 1, "Correct")
    else (fst acc, "Wrong (Correct: " +:+ correct +:+ ")") in
  let* text := getitem question "question" in
  let* explanation := getitem question "explanation" in
  Ok (fst score_result,
      (snd acc ++ [feedback_entry text (snd score_result) explanation])%list).

Definition evaluate_level (user_answers : gmap string pyval) (quiz_data : pyval)
    (level : string) (acc : Z * list pyval) : result (Z * list pyval) :=
  let* v := getitem quiz_data level in
  let* questions := iterate v in
  for_each_acc (enumerate questions) (evaluate_question user_answers level) acc.

Definition evaluate_answers (user_answers : gmap string pyval) (quiz_data : pyval)
    : result (Z * list pyval) :=
  for_each_acc levels (evaluate_level user_answers quiz_data) (0, []).

End Collaborators.

End Backend.

(** ** app.py: session state and the generate-quiz pipeline *)

Module App.

Import Backend.

(** The keys the script keeps in [st.session_state]; [widget_values] holds
    the keyed widgets (the radio of question [level_i] under that key). *)
Record session_state : Type := {
  quiz_data : pyval;
  user_answers : gmap string pyval;
  submitted_q : gmap string pyval;
  results_cache : option (Z * list pyval);
  material_info : string;
  widget_values : gmap string pyval
}.

(** The sidebar of one run of the script: the uploaded file and the
    sliders. *)
Record sidebar (pdf : Type) : Type := {
  pdf_file : option pdf;
  chunk_size : Z;
  chunk_overlap : Z;
  n_per_level : Z
}.

Arguments pdf_file {pdf} s.
Arguments chunk_size {pdf} s.
Arguments chunk_overlap {pdf} s.
Arguments n_per_level {pdf} s.

(** What a run holds after the pipeline: the sidebar, the session state,
    and the exception that ended the run when one was not caught. *)
Record run (pdf : Type) : Type := {
  run_sidebar : sidebar pdf;
  run_session : session_state;
  run_uncaught : option exn
}.

Arguments run_sidebar {pdf} r.
Arguments run_session {pdf} r.
Arguments run_uncaught {pdf} r.

(** [st.session_state.get(k)]: the value of the widget keyed [k], [None]
    when the key is not there. *)
Definition session_get (st : session_state) (k : string) : pyval :=
  default PNone (widget_values st !! k).

(** [for k in submitted_q.keys(): user_answers[k] = st.session_state.get(k)],
    the loop before the final buttons. *)
Definition sync_user_answers (st : session_state) : session_state :=
  {| quiz_data := quiz_data st;
     user_answers :=
       map_imap (fun k _ => Some (session_get st k)) (submitted_q st) ∪ user_answers st;
     submitted_q := submitted_q st;
     results_cache := results_cache st;
     material_info := material_info st;
     widget_values := widget_values st |}.

(** [if finish: ...], for a quiz that is there. *)
Definition finish (st : session_state) : result session_state :=
  let st' := sync_user_answers st in
  let* score_feedback := evaluate_answers (user_answers st') (quiz_data st') in
  Ok {| quiz_data := quiz_data st';
        user_answers := user_answers st';
        submitted_q := submitted_q st';
        results_cache := Some score_feedback;
        material_info := material_info st';
        widget_values := widget_values st' |}.

(** [sum(len(quiz[lvl]) for lvl in ["basic", "intermediate", "hard"])], the
    total of the progress tracker and of the results page. *)
Definition total_questions (quiz : pyval) : result Z :=
  for_each_acc levels
    (fun lvl total =>
       let* v := getitem quiz lvl in
       let* n := len_of v in
       Ok (total + n))
    0.

Definition default_model_name : string := "gpt-4o-mini".

(** The double 0.7, the default temperature. *)
Definition default_temperature : spec_float :=
  S754_finite false 6305039478318694 (-53).

Section Pipeline.

Variable pdf : Type.
Variable PdfReader : pdf -> result (list (result string)).
Variable split_text : Z -> Z -> string -> result (list string).
Variable chain_run : string -> spec_float -> Z -> string -> string -> result string.
Variable json_loads : string -> result pyval.

Definition set_material_info (st : session_state) (info : string) : session_state :=
  {| quiz_data := quiz_data st;
     user_answers := user_answers st;
     submitted_q := submitted_q st;
     results_cache := results_cache st;
     material_info := info;
     widget_values := widget_values st |}.

(** The four assignments after a successful generation. *)
Definition store_quiz (st : session_state) (quiz : pyval) : session_state :=
  {| quiz_data := quiz;
     user_answers := ∅;
     submitted_q := ∅;
     results_cache := None;
     material_info := material_info st;
     widget_values := widget_values st |}.

(** The two assignments of the [except] branch. *)
Definition clear_quiz (st : session_state) : session_state :=
  {| quiz_data := PNone;
     user_answers := user_answers st;
     submitted_q := submitted_q st;
     results_cache := None;
     material_info := material_info st;
     widget_values := widget_values st |}.

Definition material_banner (chunks : list string) : string :=
  "Using " +:+ str_of_int (Z.of_nat (length chunks)) +:+ " chunks. Sent "
    +:+ str_of_int (Z.min 3 (Z.of_nat (length chunks))) +:+ " chunk(s) to the model.".

(** The first [try]: the local [material] ([None] while it is unbound) and
    the session state it leaves. *)
Definition extraction_step (sb : sidebar pdf) (file : pdf) (st : session_state)
    : option string * session_state :=
  match extract_text_from_pdf pdf PdfReader file with
  | Raise _ => (Some "", st)
  | Ok full_text =>
      if negb (truthy (strip full_text)) then (None, st)
      else
        match chunk_text split_text full_text (chunk_size sb) (chunk_overlap sb) with
        | Raise _ => (Some "", st)
        | Ok chunks =>
            let material :=
              if 3 <? Z.of_nat (length chunks) then join " " (take 3 chunks)
              else join " " chunks in
            (Some material, set_material_info st (material_banner chunks))
        end
  end.

(** [if material:] and the second [try]. *)
Definition generation_step (sb : sidebar pdf) (material : option string)
    (st : session_state) : session_state * option exn :=
  match material with
  | None => (st, Some (NameError "material"))
  | Some m =>
      if truthy m then
        match generate_quiz_from_text chain_run json_loads m (n_per_level sb)
                default_model_name default_temperature with
        | Ok quiz => (store_quiz st quiz, None)
        | Raise _ => (clear_quiz st, None)
        end
      else (st, None)
  end.

(** [if generate_btn: ...] *)
Definition generate_pipeline (generate_btn : bool) (sb : sidebar pdf)
    (st : session_state) : run pdf :=
  if generate_btn then
    match pdf_file sb with
    | None => {| run_sidebar := sb; run_session := st; run_uncaught := None |}
    | Some file =>
        let ms := extraction_step sb file st in
        let se := generation_step sb (fst ms) (snd ms) in
        {| run_sidebar := sb; run_session := fst se; run_uncaught := snd se |}
    end
  else {| run_sidebar := sb; run_session := st; run_uncaught := None |}.

End Pipeline.

End App.

(** * The specification's vocabulary *)

Import Backend.

(** ** The schema *)

(** What the validator asks of a question, of a level and of the quiz, in
    the words of the specification. *)
Definition question_ok (q : pyval) : Prop :=
  exists (d opts : gmap string pyval) (c : string),
    q = PDict d /\
    (forall key, key ∈ question_keys -> is_Some (d !! key)) /\
    d !! "options" = Some (PDict opts) /\
    (forall k, k ∈ option_keys -> is_Some (opts !! k)) /\
    d !! "correct" = Some (PStr c) /\ c ∈ option_keys.

Definition level_ok (d : gmap string pyval) (n_per_level : Z) (level : string) : Prop :=
  exists qs, d !! level = Some (PList qs) /\ len qs = n_per_level /\ Forall question_ok qs.

Definition quiz_ok (data : pyval) (n_per_level : Z) : Prop :=
  exists d, data = PDict d /\ forall level, level ∈ levels -> level_ok d n_per_level level.

(** The ways a question, and a level, can break the schema, each with the
    message that reports it. *)
Inductive question_violation (level : string) (idx : nat) (q : pyval) : string -> Prop :=
| QV_not_object :
    is_dict q = false ->
    question_violation level idx q (msg_not_object level idx)
| QV_missing_key d key :
    q = PDict d -> key ∈ question_keys -> d !! key = None ->
    question_violation level idx q (msg_missing_key level idx key)
| QV_options_not_object d o :
    q = PDict d -> d !! "options" = Some o -> is_dict o = false ->
    question_violation level idx q (msg_options_not_object level idx)
| QV_missing_option d opts k :
    q = PDict d -> d !! "options" = Some (PDict opts) ->
    k ∈ option_keys -> opts !! k = None ->
    question_violation level idx q (msg_missing_option level idx k)
| QV_invalid_correct d c :
    q = PDict d -> d !! "correct" = Some c ->
    (forall k, k ∈ option_keys -> c <> PStr k) ->
    question_violation level idx q (msg_invalid_correct level idx).

Inductive level_violation (d : gmap string pyval) (n_per_level : Z) (level : string)
  : string -> Prop :=
| LV_missing :
    (forall qs, d !! level <> Some (PList qs)) ->
    level_violation d n_per_level level (msg_missing_level level)
| LV_wrong_count qs :
    d !! level = Some (PList qs) -> len qs <> n_per_level ->
    level_violation d n_per_level level (msg_wrong_count level n_per_level (len qs))
| LV_question qs idx q msg :
    d !! level = Some (PList qs) -> qs !! idx = Some q ->
    question_violation level idx q msg ->
    level_violation d n_per_level level msg.

(** [q'] is [q] with more keys: every field of [q] other than [options]
    is a field of [q'] with the same value, and the options of [q'] contain
    those of [q]; likewise a quiz keeps its levels, question by question. *)
Definition options_extend (o o' : pyval) : Prop :=
  exists opts opts' : gmap string pyval,
    o = PDict opts /\ o' = PDict opts' /\
    forall k v, opts !! k = Some v -> opts' !! k = Some v.

Definition question_extends (q q' : pyval) : Prop :=
  exists d d' : gmap string pyval,
    q = PDict d /\ q' = PDict d' /\
    (forall key v, key <> "options" -> d !! key = Some v -> d' !! key = Some v) /\
    (forall o, d !! "options" = Some o ->
               exists o', d' !! "options" = Some o' /\ options_extend o o').

Definition quiz_extends (data data' : pyval) : Prop :=
  exists d d' : gmap string pyval,
    data = PDict d /\ data' = PDict d' /\
    forall level qs, level ∈ levels -> d !! level = Some (PList qs) ->
      exists qs', d' !! level = Some (PList qs') /\ Forall2 question_extends qs qs'.

(** ** The JSON block *)

(** [c] occurs in [s]. *)
Fixpoint occurs (c : ascii) (s : string) : bool :=
  match s with
  | EmptyString => false
  | String a s' => Ascii.eqb a c || occurs c s'
  end.

Definition lbrace : string := "{".
Definition rbrace : string := "}".

(** What the pattern asks of its input, read off the pattern: a closing
    brace followed by white space only; such a brace somewhere; an opening
    brace with such a brace after it. *)
Definition closes_here (s : string) : bool :=
  match s with
  | EmptyString => false
  | String c s' => Ascii.eqb "}"%char c && all_space s'
  end.

Fixpoint closes (s : string) : bool :=
  match s with
  | EmptyString => false
  | String c s' => closes s' || closes_here s
  end.

Definition opens (s : string) : bool :=
  match s with
  | EmptyString => false
  | String c s' => Ascii.eqb "{"%char c && closes s'
  end.

Fixpoint first_block (s : string) : option string :=
  if opens s then Some s
  else match s with
       | EmptyString => None
       | String _ s' => first_block s'
       end.

(** ** The evaluator *)

(** The evaluator in the words of the specification: the questions in
    level order and, within a level, in index order; each compared after
    trimming and uppercasing both letters, a missing answer standing for
    the empty string. *)
Definition normalize (s : string) : string := upper (strip s).

Definition str_of (v : pyval) : string :=
  match v with PStr s => s | _ => "" end.

Definition field (q : pyval) (key : string) : pyval :=
  match q with
  | PDict d => default PNone (d !! key)
  | _ => PNone
  end.

Definition questions_of (quiz : pyval) (level : string) : list pyval :=
  match quiz with
  | PDict d => match d !! level with Some (PList qs) => qs | _ => [] end
  | _ => []
  end.

Definition recorded (ua : gmap string pyval) (level : string) (i : nat) : pyval :=
  default (PStr "") (ua !! answer_key level i).

Definition correct_letter_of (q : pyval) : string :=
  normalize (str_of (field q "correct")).

Definition is_right (ua : gmap string pyval) (x : string * (nat * pyval)) : bool :=
  String.eqb (normalize (str_of (recorded ua (fst x) (fst (snd x)))))
             (correct_letter_of (snd (snd x))).

Definition verdict (ua : gmap string pyval) (x : string * (nat * pyval)) : string :=
  if is_right ua x then "Correct"
  else "Wrong (Correct: " +:+ correct_letter_of (snd (snd x)) +:+ ")".

Definition entry_for (ua : gmap string pyval) (x : string * (nat * pyval)) : pyval :=
  feedback_entry (field (snd (snd x)) "question") (verdict ua x)
                 (field (snd (snd x)) "explanation").

Definition questions_in (quiz : pyval) (ls : list string) : list (string * (nat * pyval)) :=
  flat_map (fun level => map (pair level) (enumerate (questions_of quiz level))) ls.

Definition all_questions (quiz : pyval) : list (string * (nat * pyval)) :=
  questions_in quiz levels.

(** The inputs the evaluator is declared for. *)
Definition question_typed (q : pyval) : Prop :=
  exists (d : gmap string pyval) (c : string),
    q = PDict d /\ d !! "correct" = Some (PStr c) /\
    is_Some (d !! "question") /\ is_Some (d !! "explanation").

Definition quiz_typed (quiz : pyval) : Prop :=
  exists d : gmap string pyval,
    quiz = PDict d /\
    forall level, level ∈ levels ->
      exists qs, d !! level = Some (PList qs) /\ Forall question_typed qs.

Definition answers_typed (ua : gmap string pyval) : Prop :=
  forall k v, ua !! k = Some v -> exists s, v = PStr s.

Definition ok_or {A : Type} (e : exn) (r : result A) : Prop :=
  (exists a, r = Ok a) \/ r = Raise e.

(** ** The session *)

(** The frame the specification states: the state [st'] is [st] with the
    quiz cleared and nothing else changed. *)
Definition only_quiz_cleared (st st' : App.session_state) : Prop :=
  st' = {| App.quiz_data := PNone;
           App.user_answers := App.user_answers st;
           App.submitted_q := App.submitted_q st;
           App.results_cache := App.results_cache st;
           App.material_info := App.material_info st;
           App.widget_values := App.widget_values st |}.

(** ** Examples *)

Definition newline : string := String "010"%char "".

Definition pages_example : list string := ["Intro"; ""; "Body"; ""].

Definition example_options : gmap string pyval :=
  <["A" := PStr "one"]> (<["B" := PStr "two"]>
    (<["C" := PStr "three"]> (<["D" := PStr "four"]> ∅))).

Definition example_fields (text correct : string) : gmap string pyval :=
  <["question" := PStr text]> (<["options" := PDict example_options]>
    (<["correct" := PStr correct]> (<["explanation" := PStr "because"]> ∅))).

Definition example_question (text correct : string) : pyval :=
  PDict (example_fields text correct).

Definition four_questions : list pyval :=
  [ example_question "q1" "A"; example_question "q2" "B";
    example_question "q3" "C"; example_question "q4" "D" ].

Definition example_levels : gmap string pyval :=
  <["basic" := PList four_questions]> (<["intermediate" := PList four_questions]>
    (<["hard" := PList four_questions]> ∅)).

Definition example_quiz : pyval := PDict example_levels.



(** The same quiz with a title, a hint in every question and a fifth
    option. *)
Definition rich_question (text correct : string) : pyval :=
  PDict (<["hint" := PStr "think"]>
         (<["options" := PDict (<["E" := PStr "five"]> example_options)]>
          (example_fields text correct))).

Definition rich_questions : list pyval :=
  [ rich_question "q1" "A"; rich_question "q2" "B";
    rich_question "q3" "C"; rich_question "q4" "D" ].

Definition rich_quiz : pyval :=
  PDict (<["title" := PStr "Quiz"]>
         (<["basic" := PList rich_questions]> (<["intermediate" := PList rich_questions]>
           (<["hard" := PList rich_questions]> ∅)))).

(** A model that answers with prose around the object, and a parser that
    knows this one object. *)
Definition example_json : string := "{example quiz}".

Definition example_chain (model_name : string) (temperature : spec_float)
    (n : Z) (content n_per_level : string) : result string :=
  Ok ("Here is your quiz: " +:+ example_json +:+ " Good luck!").

Definition example_loads (s : string) : result pyval :=
  if String.eqb s example_json then Ok example_quiz
  else Raise (ValueError "Expecting value").

(** The example of the specification: two questions, the first answered
    correctly, the second left unanswered. *)
Definition two_question_quiz : pyval :=
  PDict (<["basic" := PList [example_question "q1" "A"; example_question "q2" "B"]]>
         (<["intermediate" := PList []]> (<["hard" := PList []]> ∅))).

Definition first_answered : gmap string pyval := <["basic_0" := PStr "A"]> ∅.

(** A recorded answer with blanks and in lower case. *)
Definition lower_case_answer : gmap string pyval := <["basic_0" := PStr " a "]> ∅.


(** A session in which the first question was submitted with nothing
    selected. *)
Definition unselected_session : App.session_state :=
  {| App.quiz_data := two_question_quiz;
     App.user_answers := ∅;
     App.submitted_q := <["basic_0" := PBool true]> ∅;
     App.results_cache := None;
     App.material_info := "";
     App.widget_values := <["basic_0" := PNone]> ∅ |}.

(** A session with a quiz in progress and results on display, and a run
    in which the provider fails. *)
Definition session_in_progress : App.session_state :=
  {| App.quiz_data := two_question_quiz;
     App.user_answers := first_answered;
     App.submitted_q := <["basic_0" := PBool true]> ∅;
     App.results_cache := Some (1, [feedback_entry (PStr "q1") "Correct" (PStr "because")]);
     App.material_info := "Using 2 chunks. Sent 2 chunk(s) to the model.";
     App.widget_values := <["basic_0" := PStr "A"]> ∅ |}.

Definition example_sidebar : App.sidebar unit :=
  {| App.pdf_file := Some tt;
     App.chunk_size := 1200;
     App.chunk_overlap := 240;
     App.n_per_level := 5 |}.

Definition one_page_reader (file : unit) : result (list (result string)) :=
  Ok [Ok "Photosynthesis turns light into sugar."].

Definition one_chunk_splitter (chunk_size overlap : Z) (text : string) : result (list string) :=
  Ok [text].

Definition failing_chain (model_name : string) (temperature : spec_float)
    (n : Z) (content n_per_level : string) : result string :=
  Raise (ExternalError "model call failed").

Definition failed_run : App.run unit :=
  App.generate_pipeline unit one_page_reader one_chunk_splitter failing_chain
    example_loads true example_sidebar session_in_progress.

(** ** Further vocabulary *)

(** [text] is [pre], an object [{body}], and [post], the opening brace
    being the first of [text] and the closing brace its last. *)
Definition block_of (text pre body post : string) : Prop :=
  text = pre +:+ lbrace +:+ body +:+ rbrace +:+ post /\
  occurs "{"%char pre = false /\ occurs "}"%char post = false.

(** The recorded value after trimming and uppercasing, when it is a
    str. *)
Definition normalize_value (v : pyval) : pyval :=
  match v with
  | PStr s => PStr (normalize s)
  | _ => v
  end.

(** A quiz with two faults in its second level and no third level. *)
Definition faulty_levels : gmap string pyval :=
  <["basic" := PList four_questions]>
    (<["intermediate" :=
         PList [ example_question "q1" "A";
                 PDict (delete "explanation" (example_fields "q2" "B"));
                 example_question "q3" "E";
                 example_question "q4" "D" ]]> ∅).

(** A quiz whose last level is missing. *)
Definition two_level_quiz : gmap string pyval :=
  <["basic" := PList [example_question "q1" "A"]]>
    (<["intermediate" := PList [example_question "q2" "B"]]> ∅).

(** A parser that refuses what does not open with a brace. *)
Definition braces_only_loads (s : string) : result pyval :=
  match s with
  | String c _ =>
      if Ascii.eqb c "{"%char then example_loads s
      else Raise (ValueError "Expecting an object")
  | EmptyString => Raise (ValueError "Expecting an object")
  end.

(** A reader whose pages hold white space only; a sidebar asking for four
    questions per level; a splitter that finds nothing to split. *)
Definition blank_page_reader (file : unit) : result (list (result string)) :=
  Ok [Ok ""; Ok "   "].

Definition four_per_level_sidebar : App.sidebar unit :=
  {| App.pdf_file := Some tt;
     App.chunk_size := 1200;
     App.chunk_overlap := 240;
     App.n_per_level := 4 |}.

Definition five_chunk_splitter (chunk_size overlap : Z) (text : string) : result (list string) :=
  Ok ["one"; "two"; "three"; "four"; "five"].

(** A reader whose second page cannot be read. *)
Definition broken_page_reader (file : unit) : result (list (result string)) :=
  Ok [Ok "Intro"; Raise (ExternalError "unreadable page"); Ok "Body"].

(** A session whose first question was submitted with [A] selected. *)
Definition answered_session : App.session_state :=
  {| App.quiz_data := two_question_quiz;
     App.user_answers := ∅;
     App.submitted_q := <["basic_0" := PBool true]> ∅;
     App.results_cache := None;
     App.material_info := "";
     App.widget_values := <["basic_0" := PStr "A"]> ∅ |}.

(** A quiz accepted for a count of one, and every question of it
    answered right, with blanks or in lower case. *)
Definition one_per_level_quiz : pyval :=
  PDict (<["basic" := PList [example_question "q1" "A"]]>
         (<["intermediate" := PList [example_question "q2" "B"]]>
          (<["hard" := PList [example_question "q3" "C"]]> ∅))).

Definition all_answered : gmap string pyval :=
  <["basic_0" := PStr " a"]> (<["intermediate_0" := PStr "b "]>
    (<["hard_0" := PStr "C"]> ∅)).

(** * Properties *)

(** ** Loops and results *)

Lemma bind_Ok_inv {A B : Type} (r : result A) (k : A -> result B) (b : B) :
  bind r k = Ok b -> exists a, r = Ok a /\ k a = Ok b.
Proof. destruct r as [a|e]; simpl; [eauto | discriminate]. Qed.

Lemma for_each_Ok {A : Type} (l : list A) (body : A -> result unit) :
  for_each l body = Ok tt <-> Forall (fun x => body x = Ok tt) l.
Proof.
  induction l as [|x l IH]; simpl.
  - split; [constructor | reflexivity].
  - rewrite Forall_cons, <- IH. destruct (body x) as [[]|e]; simpl.
    + tauto.
    + split; [discriminate | intros [? _]; discriminate].
Qed.

(** A loop that raises does so in the body, at the first element whose
    body raises. *)
Lemma for_each_Raise {A : Type} (l : list A) (body : A -> result unit) (e : exn) :
  for_each l body = Raise e ->
  exists l1 x l2, l = (l1 ++ x :: l2)%list /\
                  Forall (fun y => body y = Ok tt) l1 /\ body x = Raise e.
Proof.
  induction l as [|x l IH]; simpl; [discriminate|].
  destruct (body x) as [[]|e'] eqn:Hx; simpl.
  - intros H. destruct (IH H) as (l1 & y & l2 & -> & Hl1 & Hy).
    exists (x :: l1), y, l2. split; [reflexivity|]. split; [|assumption].
    constructor; assumption.
  - intros [= ->]. exists [], x, l. split; [reflexivity|]. split; [constructor|assumption].
Qed.

Lemma enumerate_from_elem {A : Type} (l : list A) (i k : nat) (x : A) :
  (k, x) ∈ enumerate_from i l <-> exists j, k = (i + j)%nat /\ l !! j = Some x.
Proof.
  revert i. induction l as [|y l IH]; intros i; simpl.
  - rewrite elem_of_nil. split; [tauto | intros (j & _ & H); discriminate].
  - rewrite elem_of_cons, IH. split.
    + intros [[= -> ->] | (j & -> & Hj)].
      * exists 0%nat. split; [lia | reflexivity].
      * exists (S j). split; [lia | assumption].
    + intros ([|j] & -> & Hj); simpl in Hj.
      * left. injection Hj as ->. f_equal. lia.
      * right. exists j. split; [lia | assumption].
Qed.

Lemma enumerate_elem {A : Type} (l : list A) (k : nat) (x : A) :
  (k, x) ∈ enumerate l <-> l !! k = Some x.
Proof.
  unfold enumerate. rewrite enumerate_from_elem. split.
  - intros (j & -> & H). exact H.
  - intros H. exists k. split; [reflexivity | exact H].
Qed.

(** ** Strings *)

Lemma string_app_nil_l (s : string) : "" +:+ s = s.
Proof. reflexivity. Qed.

Lemma string_app_cons (c : ascii) (s t : string) :
  String c s +:+ t = String c (s +:+ t).
Proof. reflexivity. Qed.

Lemma string_app_nil_r (s : string) : s +:+ "" = s.
Proof.
  induction s as [|c s IH]; [reflexivity|]. now rewrite string_app_cons, IH.
Qed.

Lemma string_app_assoc (s t u : string) : (s +:+ t) +:+ u = s +:+ (t +:+ u).
Proof.
  induction s as [|c s IH]; [reflexivity|]. now rewrite !string_app_cons, IH.
Qed.

Lemma string_app_length (s t : string) :
  String.length (s +:+ t) = (String.length s + String.length t)%nat.
Proof.
  induction s as [|c s IH]; [reflexivity|]. rewrite string_app_cons. simpl.
  now rewrite IH.
Qed.

Lemma string_app_eq_nil (s t : string) : s +:+ t = "" -> s = "" /\ t = "".
Proof. destruct s; [rewrite string_app_nil_l; tauto | discriminate]. Qed.

Lemma truthy_true (s : string) : truthy s = true <-> s <> "".
Proof.
  unfold truthy. rewrite negb_true_iff. destruct (String.eqb_spec s ""); split;
    congruence.
Qed.

(** ** extract_text_from_pdf *)

Section ExtractText.

Context {pdf : Type} (PdfReader : pdf -> result (list (result string))).

Lemma extract_pages_acc (texts acc : list string) :
  for_each_acc (map Ok texts)
    (fun (page : result string) (text : list string) =>
       let* page_text := page in
       if truthy page_text then Ok (text ++ [page_text])%list else Ok text)
    acc
  = Ok (acc ++ filter (fun t => t <> "") texts)%list.
Proof.
  revert acc. induction texts as [|t texts IH]; intros acc; simpl.
  - now rewrite app_nil_r.
  - destruct (truthy t) eqn:Ht; simpl; rewrite IH.
    + apply truthy_true in Ht. rewrite filter_cons_True by assumption.
      now rewrite <- app_assoc.
    + rewrite filter_cons_False; [reflexivity|].
      intros Hne. apply truthy_true in Hne. congruence.
Qed.

Lemma join_nonempty (sep : string) (l : list string) :
  Forall (fun t => t <> "") l -> join sep l = "" -> l = [].
Proof.
  destruct l as [|x [|y l]]; simpl; intros Hl H; [reflexivity| |].
  - inversion Hl; subst. congruence.
  - inversion Hl; subst. apply string_app_eq_nil in H. tauto.
Qed.

(** C7.  When the reader gives pages whose texts are [texts], the result
    is the newline-separated join, in page order, of exactly the non-empty
    texts; and it is the empty string exactly when every page text is
    empty. *)
Theorem extract_text_from_pdf_spec (file : pdf) (texts : list string) :
  PdfReader file = Ok (map Ok texts) ->
  extract_text_from_pdf pdf PdfReader file
    = Ok (join newline (filter (fun t => t <> "") texts))
  /\ (extract_text_from_pdf pdf PdfReader file = Ok "" <-> Forall (fun t => t = "") texts).
Proof.
  intros Hr. unfold extract_text_from_pdf, extract_pages. rewrite Hr. simpl.
  rewrite extract_pages_acc. simpl. split; [reflexivity|].
  split.
  - intros [= H]. apply join_nonempty in H.
    + apply Forall_forall. intros t Ht.
      destruct (decide (t = "")) as [|Hne]; [assumption|].
      assert (t ∈ filter (fun t => t <> "") texts) as Hin
        by (apply list_elem_of_filter; split; assumption).
      rewrite H in Hin. inversion Hin.
    + apply Forall_forall. intros t Ht. apply list_elem_of_filter in Ht. tauto.
  - intros Hall. f_equal. clear Hr.
    assert (filter (fun t => t <> "") texts = []) as ->; [|reflexivity].
    induction Hall as [|t l Ht _ IH]; [reflexivity|].
    rewrite filter_cons_False; [exact IH | congruence].
Qed.

End ExtractText.

Lemma extract_text_from_pdf_spec_witness :
  extract_text_from_pdf unit (fun _ => Ok (map Ok pages_example)) tt
    = Ok ("Intro" +:+ newline +:+ "Body").
Proof.
  destruct (extract_text_from_pdf_spec (fun _ : unit => Ok (map Ok pages_example))
              tt pages_example eq_refl) as [H _].
  rewrite H. vm_compute. reflexivity.
Defined.

(** ** _validate_quiz_schema *)

Lemma contains_dict (d : gmap string pyval) (key : string) :
  contains (PDict d) key = Ok (bool_decide (is_Some (d !! key))).
Proof. reflexivity. Qed.

Lemma require_keys_Ok (d : gmap string pyval) (keys : list string) (msg : string -> string) :
  require_keys (PDict d) keys msg = Ok tt <-> forall key, key ∈ keys -> is_Some (d !! key).
Proof.
  unfold require_keys. rewrite for_each_Ok, Forall_forall.
  split; intros H key Hkey; specialize (H key Hkey); simpl in *.
  - destruct (d !! key); [eauto | discriminate].
  - destruct H as [x ->]. reflexivity.
Qed.

Lemma require_keys_Raise (d : gmap string pyval) (keys : list string)
    (msg : string -> string) (e : exn) :
  require_keys (PDict d) keys msg = Raise e ->
  exists key, key ∈ keys /\ d !! key = None /\ e = ValueError (msg key).
Proof.
  unfold require_keys. intros H.
  apply for_each_Raise in H as (l1 & key & l2 & -> & _ & H).
  exists key. split; [apply elem_of_app; right; left|].
  simpl in H. destruct (d !! key); simpl in H; [discriminate|].
  injection H as <-. split; reflexivity.
Qed.

Lemma str_eq_true (v : pyval) (s : string) : str_eq v s = true <-> v = PStr s.
Proof.
  destruct v; simpl; try (split; [discriminate | intros [=]]).
  destruct (String.eqb_spec s0 s); split; congruence.
Qed.

Lemma correct_letter (c : pyval) :
  existsb (str_eq c) option_keys = true <-> exists k, c = PStr k /\ k ∈ option_keys.
Proof.
  rewrite existsb_exists. split.
  - intros (k & Hk & Heq). apply str_eq_true in Heq. exists k.
    split; [assumption | now apply list_elem_of_In].
  - intros (k & -> & Hk). exists k. split; [now apply list_elem_of_In|].
    now apply str_eq_true.
Qed.

Lemma check_question_Ok (level : string) (iq : nat * pyval) :
  check_question level iq = Ok tt <-> question_ok (snd iq).
Proof.
  destruct iq as [idx q]. unfold check_question, question_ok. simpl.
  destruct q as [| | | | |l|d]; simpl;
    try (split; [discriminate | intros (d' & opts & c & [=] & _)]).
  destruct (require_keys (PDict d) question_keys (msg_missing_key level idx))
    as [[]|e] eqn:Hkeys; simpl.
  2:{ split; [discriminate|]. intros (d' & opts & c & [= <-] & Hk & _).
      apply (require_keys_Ok _ _ (msg_missing_key level idx)) in Hk. congruence. }
  pose proof (proj1 (require_keys_Ok _ _ _) Hkeys) as Hk.
  destruct (d !! "options") as [o|] eqn:Ho; simpl.
  2:{ split; [discriminate|]. intros (d' & opts & c & [= <-] & _ & Ho' & _). congruence. }
  destruct o as [| | | | |l|opts]; simpl;
    try (split; [discriminate | intros (d' & opts' & c & [= <-] & _ & Ho' & _); congruence]).
  destruct (require_keys (PDict opts) option_keys (msg_missing_option level idx))
    as [[]|e] eqn:Hopts; simpl.
  2:{ split; [discriminate|]. intros (d' & opts' & c & [= <-] & _ & Ho' & Hk' & _).
      assert (opts' = opts) as -> by congruence.
      apply (require_keys_Ok _ _ (msg_missing_option level idx)) in Hk'. congruence. }
  pose proof (proj1 (require_keys_Ok _ _ _) Hopts) as Hk'.
  destruct (d !! "correct") as [c|] eqn:Hc; cbn [bind].
  2:{ split; [discriminate|]. intros (d' & opts' & c & [= <-] & _ & _ & _ & Hc' & _).
      congruence. }
  change (str_eq c "A" || (str_eq c "B" || (str_eq c "C" || (str_eq c "D" || false))))
    with (existsb (str_eq c) option_keys).
  destruct (existsb (str_eq c) option_keys) eqn:Hex; cbn [negb].
  - split; [intros _ | reflexivity].
    apply correct_letter in Hex as (k & -> & Hin).
    exists d, opts, k. auto 10.
  - split; [discriminate|].
    intros (d' & opts' & k & [= <-] & _ & _ & _ & Hc' & Hin).
    assert (c = PStr k) as -> by congruence.
    assert (existsb (str_eq (PStr k)) option_keys = true) by (apply correct_letter; eauto).
    congruence.
Qed.

Lemma check_question_Raise (level : string) (idx : nat) (q : pyval) (e : exn) :
  check_question level (idx, q) = Raise e ->
  exists msg, e = ValueError msg /\ question_violation level idx q msg.
Proof.
  unfold check_question. cbn [fst snd].
  destruct (is_dict q) eqn:Hq; cbn [negb].
  2:{ intros [= <-]. eexists. split; [reflexivity|]. now apply QV_not_object. }
  destruct q as [| | | | |l|d]; try discriminate. clear Hq.
  destruct (require_keys (PDict d) question_keys (msg_missing_key level idx))
    as [[]|e'] eqn:Hkeys; cbn [bind].
  2:{ intros [= <-]. apply require_keys_Raise in Hkeys as (key & Hin & Hnone & ->).
      eexists. split; [reflexivity|]. now apply (QV_missing_key _ _ _ d key). }
  pose proof (proj1 (require_keys_Ok _ _ _) Hkeys) as Hk.
  destruct (Hk "options") as [o Ho]; [set_solver|].
  destruct (Hk "correct") as [c Hc]; [set_solver|].
  unfold getitem at 1. rewrite Ho. cbn [bind].
  destruct (is_dict o) eqn:Hdict; cbn [negb].
  2:{ intros [= <-]. eexists. split; [reflexivity|].
      now apply (QV_options_not_object _ _ _ d o). }
  destruct o as [| | | | |l|opts]; try discriminate. clear Hdict.
  destruct (require_keys (PDict opts) option_keys (msg_missing_option level idx))
    as [[]|e'] eqn:Hopts; cbn [bind].
  2:{ intros [= <-]. apply require_keys_Raise in Hopts as (k & Hin & Hnone & ->).
      eexists. split; [reflexivity|]. now apply (QV_missing_option _ _ _ d opts k). }
  unfold getitem. rewrite Hc. cbn [bind].
  destruct (existsb (str_eq c) option_keys) eqn:Hex; cbn [negb]; [discriminate|].
  intros [= <-]. eexists. split; [reflexivity|].
  apply (QV_invalid_correct _ _ _ d c); [reflexivity | assumption |].
  intros k Hin ->.
  assert (existsb (str_eq (PStr k)) option_keys = true) by (apply correct_letter; eauto).
  congruence.
Qed.


Lemma check_questions_Ok (level : string) (qs : list pyval) :
  for_each (enumerate qs) (check_question level) = Ok tt <-> Forall question_ok qs.
Proof.
  rewrite for_each_Ok, !Forall_forall. split.
  - intros H q Hq. apply list_elem_of_lookup in Hq as [i Hi].
    apply (check_question_Ok level (i, q)). apply H. now apply enumerate_elem.
  - intros H [i q] Hiq. apply check_question_Ok. apply H.
    apply enumerate_elem in Hiq. apply list_elem_of_lookup. eauto.
Qed.

Lemma check_level_Ok (d : gmap string pyval) (n_per_level : Z) (level : string) :
  check_level (PDict d) n_per_level level = Ok tt <-> level_ok d n_per_level level.
Proof.
  unfold check_level, level_ok. rewrite contains_dict. cbn [bind].
  destruct (d !! level) as [v|] eqn:Hv; cbn [negb bool_decide decide_rel].
  2:{ simpl. split; [discriminate | intros (qs & [=] & _)]. }
  simpl. rewrite Hv. cbn [bind].
  destruct v as [| | | | |qs|d']; try (split; [discriminate | intros (qs' & [=] & _)]).
  destruct (Z.eqb_spec (len qs) n_per_level) as [Hn|Hn]; cbn [negb].
  - rewrite check_questions_Ok. split.
    + intros H. exists qs. auto.
    + intros (qs' & [= <-] & _ & H). exact H.
  - split; [discriminate|]. intros (qs' & [= <-] & Hlen & _). contradiction.
Qed.

Lemma check_level_Raise (d : gmap string pyval) (n_per_level : Z) (level : string) (e : exn) :
  check_level (PDict d) n_per_level level = Raise e ->
  exists msg, e = ValueError msg /\ level_violation d n_per_level level msg.
Proof.
  unfold check_level. rewrite contains_dict. cbn [bind].
  destruct (d !! level) as [v|] eqn:Hv; cbn [negb bool_decide decide_rel].
  2:{ simpl. intros [= <-]. eexists. split; [reflexivity|].
      apply LV_missing. intros qs. congruence. }
  simpl. rewrite Hv. cbn [bind].
  destruct v as [| | | | |qs|d'];
    try (intros [= <-]; eexists; split; [reflexivity|];
         apply LV_missing; intros qs; congruence).
  destruct (Z.eqb_spec (len qs) n_per_level) as [Hn|Hn]; cbn [negb].
  - intros H. apply for_each_Raise in H as (l1 & [idx q] & l2 & Hsplit & _ & H).
    apply check_question_Raise in H as (msg & -> & Hq).
    exists msg. split; [reflexivity|].
    apply (LV_question _ _ _ qs idx q); [assumption| |assumption].
    apply enumerate_elem. rewrite Hsplit. apply elem_of_app. right. left.
  - intros [= <-]. eexists. split; [reflexivity|]. now apply LV_wrong_count.
Qed.


(** What is not a dict is never accepted: the first level already fails,
    with [TypeError] or with the missing-level message. *)
Lemma validate_not_dict (data : pyval) (n_per_level : Z) :
  is_dict data = false -> raises (_validate_quiz_schema data n_per_level).
Proof.
  unfold _validate_quiz_schema, levels, raises. cbn [for_each].
  unfold check_level at 1.
  destruct data as [| | | | s |l|d]; intros Hd; try discriminate; cbn [contains bind];
    try (eexists; reflexivity).
  - destruct (is_substring "basic" s); cbn [negb getitem bind]; eexists; reflexivity.
  - destruct (existsb _ l); cbn [negb getitem bind]; eexists; reflexivity.
Qed.

Lemma validate_Ok (data : pyval) (n_per_level : Z) :
  _validate_quiz_schema data n_per_level = Ok tt <-> quiz_ok data n_per_level.
Proof.
  destruct (is_dict data) eqn:Hd.
  - destruct data as [| | | | | |d]; try discriminate.
    unfold _validate_quiz_schema, quiz_ok. rewrite for_each_Ok, Forall_forall. split.
    + intros H. exists d. split; [reflexivity|]. intros level Hl.
      apply check_level_Ok. now apply H.
    + intros (d' & [= <-] & H) level Hl. apply check_level_Ok. now apply H.
  - split.
    + intros H. destruct (validate_not_dict data n_per_level Hd) as [e He]. congruence.
    + intros (d & -> & _). discriminate.
Qed.






(** C6.  In a quiz the validator accepts, the [correct] value of every
    question of every level is a key of that question's [options]. *)
Theorem validated_correct_in_options (data : pyval) (n_per_level : Z)
    (level : string) (qs : list pyval) (q : pyval) :
  _validate_quiz_schema data n_per_level = Ok tt ->
  level ∈ levels -> getitem data level = Ok (PList qs) -> q ∈ qs ->
  exists (options : pyval) (c : string),
    getitem q "options" = Ok options /\
    getitem q "correct" = Ok (PStr c) /\
    contains options c = Ok true.
Proof.
  intros Hval Hin Hget Hq.
  apply validate_Ok in Hval as (d & -> & Hok).
  destruct (Hok level Hin) as (qs' & Hqs' & _ & Hall).
  simpl in Hget. rewrite Hqs' in Hget. injection Hget as ->.
  rewrite Forall_forall in Hall.
  destruct (Hall q Hq) as (qd & opts & c & -> & _ & Ho & Hopts & Hc & Hcin).
  exists (PDict opts), c. simpl. rewrite Ho, Hc.
  split; [reflexivity|]. split; [reflexivity|].
  f_equal. apply bool_decide_eq_true. now apply Hopts.
Qed.

(** C1.  Whatever the model answers and whatever [json.loads] makes of it,
    a quiz that [generate_quiz_from_text] returns has, under each of the
    three level keys, a list of exactly [questions_per_level] well-formed
    question objects. *)
Theorem generate_quiz_from_text_count
    (chain_run : string -> spec_float -> Z -> string -> string -> result string)
    (json_loads : string -> result pyval)
    (content : string) (questions_per_level : Z)
    (model_name : string) (temperature : spec_float) (data : pyval) :
  generate_quiz_from_text chain_run json_loads content questions_per_level
    model_name temperature = Ok data ->
  forall level, level ∈ levels ->
    exists qs, getitem data level = Ok (PList qs) /\
               len qs = questions_per_level /\ Forall question_ok qs.
Proof.
  unfold generate_quiz_from_text. intros H level Hin.
  apply bind_Ok_inv in H as (raw & _ & H).
  apply bind_Ok_inv in H as (json_str & _ & H).
  apply bind_Ok_inv in H as (data' & _ & H).
  apply bind_Ok_inv in H as ([] & Hval & [= ->]).
  apply validate_Ok in Hval as (d & -> & Hok).
  destruct (Hok level Hin) as (qs & Hqs & Hlen & Hall).
  exists qs. simpl. rewrite Hqs. auto.
Qed.

(** ** Extra keys *)

Lemma question_ok_extends (q q' : pyval) :
  question_ok q -> question_extends q q' -> question_ok q'.
Proof.
  intros (d & opts & c & -> & Hk & Ho & Hopts & Hc & Hin)
         (d0 & d' & [= <-] & -> & Hfields & Hoptions).
  destruct (Hoptions _ Ho) as (o' & Ho' & (opts0 & opts' & [= <-] & -> & Hsub)).
  exists d', opts', c. split; [reflexivity|]. split; [|split; [exact Ho'|split]].
  - intros key Hkey. destruct (decide (key = "options")) as [->|Hne]; [eauto|].
    destruct (Hk key Hkey) as [v Hv]. exists v. now apply Hfields.
  - intros k Hkin. destruct (Hopts k Hkin) as [v Hv]. exists v. now apply Hsub.
  - split; [|exact Hin]. apply Hfields; [discriminate | exact Hc].
Qed.

(** C10.  Presence only: a quiz that extends an accepted one by further
    top-level keys, further fields in its questions and further keys in
    their options is accepted for the same count. *)
Theorem validate_accepts_extra_keys (data data' : pyval) (n_per_level : Z) :
  _validate_quiz_schema data n_per_level = Ok tt ->
  quiz_extends data data' ->
  _validate_quiz_schema data' n_per_level = Ok tt.
Proof.
  intros Hval (d0 & d' & -> & -> & Hext).
  apply validate_Ok in Hval as (d & [= <-] & Hok).
  apply validate_Ok. exists d'. split; [reflexivity|].
  intros level Hin. destruct (Hok level Hin) as (qs & Hqs & Hlen & Hall).
  destruct (Hext level qs Hin Hqs) as (qs' & Hqs' & H2).
  exists qs'. split; [exact Hqs'|]. split.
  - unfold len in *. now rewrite <- (Forall2_length _ _ _ H2).
  - clear Hqs Hqs' Hlen. induction H2 as [|q q' qs qs' Hq _ IH]; [constructor|].
    inversion Hall; subst. constructor; [eapply question_ok_extends; eauto | auto].
Qed.

(** ** The schema on the example quizzes *)

Lemma level_cases (P : string -> Prop) :
  P "basic" -> P "intermediate" -> P "hard" -> forall level, level ∈ levels -> P level.
Proof.
  intros H1 H2 H3 level Hin. apply list_elem_of_In in Hin. simpl in Hin.
  destruct Hin as [<-|[<-|[<-|[]]]]; assumption.
Qed.

Lemma hard_level : "hard" ∈ levels.
Proof. apply list_elem_of_In. simpl. tauto. Qed.

Lemma basic_level : "basic" ∈ levels.
Proof. apply list_elem_of_In. simpl. tauto. Qed.


Lemma validated_correct_in_options_witness :
  exists (options : pyval) (c : string),
    getitem (example_question "q2" "B") "options" = Ok options /\
    getitem (example_question "q2" "B") "correct" = Ok (PStr c) /\
    contains options c = Ok true.
Proof.
  apply (validated_correct_in_options example_quiz 4 "basic" four_questions).
  - vm_compute. reflexivity.
  - exact basic_level.
  - vm_compute. reflexivity.
  - apply list_elem_of_In. simpl. tauto.
Defined.

Lemma generate_quiz_from_text_count_witness :
  exists qs, getitem example_quiz "hard" = Ok (PList qs) /\
             len qs = 4 /\ Forall question_ok qs.
Proof.
  apply (generate_quiz_from_text_count example_chain example_loads
           "study material" 4 "gpt-4o-mini" App.default_temperature example_quiz).
  - vm_compute. reflexivity.
  - exact hard_level.
Defined.

Lemma rich_question_extends (text correct : string) :
  question_extends (example_question text correct) (rich_question text correct).
Proof.
  exists (example_fields text correct),
    (<["hint" := PStr "think"]>
       (<["options" := PDict (<["E" := PStr "five"]> example_options)]>
          (example_fields text correct))).
  split; [reflexivity|]. split; [reflexivity|]. split.
  - intros key v Hne Hv.
    destruct (decide (key = "hint")) as [->|Hhint]; [vm_compute in Hv; discriminate|].
    rewrite lookup_insert_ne by congruence. rewrite lookup_insert_ne by congruence.
    exact Hv.
  - intros o Ho. exists (PDict (<["E" := PStr "five"]> example_options)). split.
    + rewrite lookup_insert_ne by discriminate. apply lookup_insert_eq.
    + unfold example_fields in Ho. rewrite lookup_insert_ne in Ho by discriminate.
      rewrite lookup_insert_eq in Ho. injection Ho as <-.
      exists example_options, (<["E" := PStr "five"]> example_options).
      split; [reflexivity|]. split; [reflexivity|]. intros k v Hk.
      destruct (decide (k = "E")) as [->|HE]; [vm_compute in Hk; discriminate|].
      rewrite lookup_insert_ne by congruence. exact Hk.
Qed.

Lemma rich_quiz_extends : quiz_extends example_quiz rich_quiz.
Proof.
  eexists _, _. split; [reflexivity|]. split; [reflexivity|].
  intros level qs Hin. revert level Hin qs.
  apply (level_cases (fun level => forall qs, example_levels !! level = Some (PList qs) ->
           exists qs', _ !! level = Some (PList qs') /\ Forall2 question_extends qs qs'));
    intros qs Hqs; vm_compute in Hqs; injection Hqs as <-;
    (exists rich_questions; split; [vm_compute; reflexivity|]);
    repeat constructor; apply rich_question_extends.
Qed.

Lemma validate_accepts_extra_keys_witness : _validate_quiz_schema rich_quiz 4 = Ok tt.
Proof.
  apply (validate_accepts_extra_keys example_quiz rich_quiz 4).
  - vm_compute. reflexivity.
  - exact rich_quiz_extends.
Defined.

(** ** _extract_json_block *)

Lemma match_star_cons (cls : ascii -> bool) (p : Re.pattern) (c : ascii) (s : string) :
  Re.match_here (Re.Star cls :: p) (String c s)
  = if cls c then
      match Re.match_here (Re.Star cls :: p) s with
      | Some m => Some (String c m)
      | None => Re.match_here p (String c s)
      end
    else Re.match_here p (String c s).
Proof. reflexivity. Qed.

Lemma match_spaces_eol (s : string) :
  Re.match_here [Re.Star Re.space; Re.Eol] s = if all_space s then Some s else None.
Proof.
  induction s as [|c s IH].
  - reflexivity.
  - rewrite match_star_cons, IH. unfold Re.space. cbn [all_space].
    destruct (isspace c) eqn:Hc; cbn [andb].
    + destruct (all_space s) eqn:Hs; [reflexivity|].
      cbn [Re.match_here Re.at_eol]. destruct s; [discriminate | reflexivity].
    + cbn [Re.match_here Re.at_eol]. destruct s; [|reflexivity].
      destruct (Ascii.eqb_spec c "010"%char) as [->|]; [discriminate | reflexivity].
Qed.

Lemma match_close (s : string) :
  Re.match_here [Re.One (Re.char "}"%char); Re.Star Re.space; Re.Eol] s
  = if closes_here s then Some s else None.
Proof.
  destruct s as [|c s]; [reflexivity|].
  change (Re.match_here [Re.One (Re.char "}"%char); Re.Star Re.space; Re.Eol] (String c s))
    with (if Re.char "}"%char c
          then String c <$> Re.match_here [Re.Star Re.space; Re.Eol] s else None).
  rewrite match_spaces_eol. unfold Re.char. cbn [closes_here].
  destruct (Ascii.eqb "}"%char c); [|reflexivity].
  destruct (all_space s); reflexivity.
Qed.

Lemma either_space_any (c : ascii) : Re.either Re.space Re.non_space c = true.
Proof. unfold Re.either, Re.space, Re.non_space. destruct (isspace c); reflexivity. Qed.

Lemma match_any_close (s : string) :
  Re.match_here [Re.Star (Re.either Re.space Re.non_space);
                 Re.One (Re.char "}"%char); Re.Star Re.space; Re.Eol] s
  = if closes s then Some s else None.
Proof.
  induction s as [|c s IH].
  - reflexivity.
  - rewrite match_star_cons, either_space_any, IH, match_close. cbn [closes].
    destruct (closes s); reflexivity.
Qed.

Lemma match_json_block (s : string) :
  Re.match_here json_block_re s = if opens s then Some s else None.
Proof.
  destruct s as [|c s]; [reflexivity|]. unfold json_block_re.
  change (Re.match_here (Re.One (Re.char "{"%char) :: ?p) (String c s))
    with (if Re.char "{"%char c then String c <$> Re.match_here p s else None).
  rewrite match_any_close. unfold Re.char. cbn [opens].
  destruct (Ascii.eqb "{"%char c); [|reflexivity].
  destruct (closes s); reflexivity.
Qed.

Lemma search_json_block (s : string) :
  Re.search json_block_re s = first_block s.
Proof.
  induction s as [|c s IH].
  - reflexivity.
  - cbn [Re.search first_block]. rewrite match_json_block, IH.
    destruct (opens (String c s)); reflexivity.
Qed.

Lemma occurs_app (c : ascii) (s t : string) :
  occurs c (s +:+ t) = occurs c s || occurs c t.
Proof.
  induction s as [|a s IH]; [reflexivity|].
  rewrite string_app_cons. cbn [occurs]. rewrite IH. apply orb_assoc.
Qed.

Lemma occurs_space (c : ascii) (w : string) :
  isspace c = false -> all_space w = true -> occurs c w = false.
Proof.
  intros Hc. induction w as [|a w IH]; [reflexivity|]. cbn [all_space occurs].
  intros [Ha Hw]%andb_true_iff. rewrite (IH Hw), orb_false_r.
  destruct (Ascii.eqb_spec a c) as [->|]; [congruence | reflexivity].
Qed.

Lemma closes_app_rbrace (body : string) : closes (body +:+ rbrace) = true.
Proof.
  induction body as [|c body IH]; [reflexivity|].
  rewrite string_app_cons. cbn [closes]. now rewrite IH.
Qed.

Lemma closes_inv (s : string) :
  closes s = true ->
  exists body w, s = body +:+ rbrace +:+ w /\ all_space w = true.
Proof.
  induction s as [|c s IH]; [discriminate|]. cbn [closes closes_here].
  intros [H|H]%orb_true_iff.
  - destruct (IH H) as (body & w & -> & Hw). exists (String c body), w. auto.
  - apply andb_true_iff in H as [Hc Hw]. apply Ascii.eqb_eq in Hc as <-.
    exists "", s. auto.
Qed.

Lemma first_block_found (pre body : string) :
  occurs "{"%char pre = false ->
  first_block (pre +:+ lbrace +:+ body +:+ rbrace) = Some (lbrace +:+ body +:+ rbrace).
Proof.
  induction pre as [|a pre IH].
  - intros _. rewrite string_app_nil_l.
    change (lbrace +:+ body +:+ rbrace) with (String "{"%char (body +:+ rbrace)).
    cbn [first_block opens]. now rewrite closes_app_rbrace.
  - cbn [occurs]. intros [Ha Hpre]%orb_false_iff. rewrite string_app_cons.
    cbn [first_block opens]. rewrite Ascii.eqb_sym, Ha. cbn [andb]. now apply IH.
Qed.

Lemma first_block_inv (t m : string) :
  first_block t = Some m ->
  exists pre body w,
    t = pre +:+ lbrace +:+ body +:+ rbrace +:+ w /\
    m = lbrace +:+ body +:+ rbrace +:+ w /\
    occurs "{"%char pre = false /\ all_space w = true.
Proof.
  induction t as [|a t IH]; [discriminate|]. cbn [first_block opens].
  destruct (Ascii.eqb_spec "{"%char a) as [<-|Ha]; cbn [andb].
  - destruct (closes t) eqn:Hc.
    + intros [= <-]. apply closes_inv in Hc as (body & w & -> & Hw).
      exists "", body, w. auto.
    + intros H. destruct (IH H) as (pre & body & w & -> & -> & Hpre & Hw).
      pose proof (closes_app_rbrace (pre +:+ lbrace +:+ body)) as Hc'.
      exfalso. clear IH H.
      assert (closes (pre +:+ lbrace +:+ body +:+ rbrace +:+ w) = true) as Hc''.
      { clear Hc Hc' Hpre. set (x := pre +:+ lbrace +:+ body).
        replace (pre +:+ lbrace +:+ body +:+ rbrace +:+ w) with (x +:+ rbrace +:+ w)
          by (unfold x; now rewrite !string_app_assoc).
        induction x as [|c x IHx].
        - rewrite string_app_nil_l. change (rbrace +:+ w) with (String "}"%char w).
          cbn [closes closes_here]. rewrite Hw. apply orb_true_r.
        - rewrite string_app_cons. cbn [closes]. now rewrite IHx. }
      congruence.
  - intros H. destruct (IH H) as (pre & body & w & -> & -> & Hpre & Hw).
    exists (String a pre), body, w. split; [reflexivity|]. split; [reflexivity|].
    split; [|assumption]. cbn [occurs]. rewrite Hpre, orb_false_r.
    destruct (Ascii.eqb_spec a "{"%char); congruence.
Qed.

Lemma all_space_rstrip (s : string) :
  all_space s = false -> all_space (rstrip s) = false.
Proof.
  induction s as [|a s IH]; [discriminate|]. intros H.
  cbn [rstrip]. rewrite H. cbn [all_space] in *.
  destruct (isspace a); [|reflexivity]. cbn [andb] in *. auto.
Qed.

Lemma rstrip_trailing (s x w : string) :
  rstrip s = x +:+ w -> all_space w = true -> w = "".
Proof.
  revert x. induction s as [|a s IH]; intros x.
  - cbn [rstrip]. intros H _. symmetry in H. apply string_app_eq_nil in H. tauto.
  - cbn [rstrip]. destruct (all_space (String a s)) eqn:Has.
    + intros H _. symmetry in H. apply string_app_eq_nil in H. tauto.
    + destruct x as [|b x].
      * rewrite string_app_nil_l. intros <- Hw. exfalso.
        cbn [all_space] in *. apply andb_true_iff in Hw as [Ha Hs].
        rewrite Ha in Has. cbn [andb] in Has.
        apply all_space_rstrip in Has. congruence.
      * rewrite string_app_cons. intros [= _ H]. now apply (IH x).
Qed.

Lemma lstrip_decomp (s : string) :
  exists w, s = w +:+ lstrip s /\ all_space w = true.
Proof.
  induction s as [|a s (w & IH & Hw)]; [exists ""; auto|].
  cbn [lstrip]. destruct (isspace a) eqn:Ha.
  - exists (String a w). rewrite string_app_cons, <- IH. cbn [all_space].
    now rewrite Ha, Hw.
  - exists "". auto.
Qed.

Lemma rstrip_decomp (s : string) :
  exists w, s = rstrip s +:+ w /\ all_space w = true.
Proof.
  induction s as [|a s (w & IH & Hw)]; [exists ""; auto|].
  cbn [rstrip]. destruct (all_space (String a s)) eqn:Has.
  - exists (String a s). auto.
  - exists w. rewrite string_app_cons, <- IH. auto.
Qed.

Lemma strip_decomp (s : string) :
  exists w1 w2, s = w1 +:+ strip s +:+ w2 /\ all_space w1 = true /\ all_space w2 = true.
Proof.
  destruct (lstrip_decomp s) as (w1 & H1 & Hw1).
  destruct (rstrip_decomp (lstrip s)) as (w2 & H2 & Hw2).
  exists w1, w2. unfold strip. now rewrite <- H2, <- H1.
Qed.

(** On a stripped text the pattern matches exactly when the text ends in a
    closing brace with an opening brace before it. *)
Lemma first_block_strip (text m : string) :
  first_block (strip text) = Some m ->
  exists pre body,
    strip text = pre +:+ lbrace +:+ body +:+ rbrace /\
    m = lbrace +:+ body +:+ rbrace /\ occurs "{"%char pre = false.
Proof.
  intros H. apply first_block_inv in H as (pre & body & w & Ht & -> & Hpre & Hw).
  assert (w = "") as ->.
  { apply (rstrip_trailing (lstrip text) (pre +:+ lbrace +:+ body +:+ rbrace) w);
      [|assumption].
    fold (strip text). rewrite Ht. now rewrite !string_app_assoc. }
  rewrite string_app_nil_r in Ht. exists pre, body. now rewrite string_app_nil_r.
Qed.

Lemma find_ge (s : string) (c : ascii) : -1 <= find s c.
Proof.
  induction s as [|a s IH]; cbn [find]; [lia|].
  destruct (Ascii.eqb a c); [lia|]. destruct (Z.ltb_spec (find s c) 0); lia.
Qed.

Lemma rfind_ge (s : string) (c : ascii) : -1 <= rfind s c.
Proof.
  induction s as [|a s IH]; cbn [rfind]; [lia|].
  destruct (Z.leb_spec 0 (rfind s c)); [lia|]. destruct (Ascii.eqb a c); lia.
Qed.

Lemma find_first (pre rest : string) (c : ascii) :
  occurs c pre = false ->
  find (pre +:+ String c rest) c = Z.of_nat (String.length pre).
Proof.
  induction pre as [|a pre IH].
  - intros _. rewrite string_app_nil_l. cbn [find]. now rewrite Ascii.eqb_refl.
  - cbn [occurs]. intros [Ha Hpre]%orb_false_iff. rewrite string_app_cons.
    cbn [find String.length]. rewrite Ha, (IH Hpre).
    destruct (Z.ltb_spec (Z.of_nat (String.length pre)) 0); lia.
Qed.

Lemma rfind_none (s : string) (c : ascii) : occurs c s = false -> rfind s c = -1.
Proof.
  induction s as [|a s IH]; [reflexivity|]. cbn [occurs rfind].
  intros [Ha Hs]%orb_false_iff. rewrite (IH Hs), Ha. reflexivity.
Qed.

Lemma rfind_last (x post : string) (c : ascii) :
  occurs c post = false ->
  rfind (x +:+ String c post) c = Z.of_nat (String.length x).
Proof.
  intros Hpost. induction x as [|a x IH].
  - rewrite string_app_nil_l. cbn [rfind]. rewrite (rfind_none _ _ Hpost).
    now rewrite Ascii.eqb_refl.
  - rewrite string_app_cons. cbn [rfind String.length]. rewrite IH.
    destruct (Z.leb_spec 0 (Z.of_nat (String.length x))); lia.
Qed.

Lemma find_inv (s : string) (c : ascii) :
  0 <= find s c ->
  exists pre rest, s = pre +:+ String c rest /\ occurs c pre = false.
Proof.
  induction s as [|a s IH]; cbn [find]; [lia|].
  destruct (Ascii.eqb_spec a c) as [->|Ha].
  - intros _. exists "", s. auto.
  - destruct (Z.ltb_spec (find s c) 0); [lia|]. intros _.
    destruct IH as (pre & rest & -> & Hpre); [lia|].
    exists (String a pre), rest. split; [reflexivity|]. cbn [occurs].
    rewrite Hpre, orb_false_r. now apply Ascii.eqb_neq.
Qed.

Lemma rfind_inv (s : string) (c : ascii) :
  0 <= rfind s c ->
  exists x post, s = x +:+ String c post /\ occurs c post = false.
Proof.
  induction s as [|a s IH]; cbn [rfind]; [lia|].
  destruct (Z.leb_spec 0 (rfind s c)) as [Hr|Hr].
  - intros _. destruct (IH Hr) as (x & post & -> & Hpost).
    exists (String a x), post. auto.
  - destruct (Ascii.eqb_spec a c) as [->|Ha]; [|lia]. intros _.
    exists "", s. split; [reflexivity|].
    destruct (occurs c s) eqn:Hocc; [|reflexivity]. exfalso.
    clear IH. revert Hr. induction s as [|b s IHs]; [discriminate|].
    cbn [rfind occurs] in *. destruct (Z.leb_spec 0 (rfind s c)); [lia|].
    destruct (Ascii.eqb_spec b c); [lia|]. cbn [orb] in Hocc. intros _.
    apply IHs; [assumption | lia].
Qed.

(** Two places in one string: the earlier one lies inside what precedes
    the later one. *)
Lemma string_app_split (pre rest x post : string) (c c' : ascii) :
  pre +:+ String c rest = x +:+ String c' post ->
  (String.length pre < String.length x)%nat ->
  exists body, x = pre +:+ String c body /\ rest = body +:+ String c' post.
Proof.
  revert x. induction pre as [|a pre IH]; intros [|b x]; cbn [String.length];
    rewrite ?string_app_nil_l, ?string_app_cons; try lia.
  - intros [= <- ->] _. exists x. auto.
  - intros [= <- H] Hlt. destruct (IH x H) as (body & -> & ->); [lia|].
    exists body. auto.
Qed.

Lemma substring_prefix (m post : string) :
  substring 0 (String.length m) (m +:+ post) = m.
Proof.
  induction m as [|a m IH]; [destruct post; reflexivity|].
  rewrite string_app_cons. cbn [String.length substring]. now rewrite IH.
Qed.

Lemma substring_middle (pre m post : string) :
  substring (String.length pre) (String.length m) (pre +:+ m +:+ post) = m.
Proof.
  induction pre as [|a pre IH]; [exact (substring_prefix m post)|].
  rewrite string_app_cons. cbn [String.length substring]. exact IH.
Qed.

Lemma slice_middle (pre m post : string) :
  slice (pre +:+ m +:+ post)
    (Z.of_nat (String.length pre))
    (Z.of_nat (String.length pre) + Z.of_nat (String.length m)) = m.
Proof.
  unfold slice, slice_bound. rewrite !string_app_length.
  destruct (Z.ltb_spec (Z.of_nat (String.length pre)) 0); [lia|].
  destruct (Z.ltb_spec (Z.of_nat (String.length pre) + Z.of_nat (String.length m)) 0);
    [lia|].
  transitivity (substring (String.length pre) (String.length m) (pre +:+ m +:+ post));
    [f_equal; lia | apply substring_middle].
Qed.

(** The fallback on a text whose first opening brace comes before its last
    closing brace. *)
Lemma fallback_found (pre body post : string) :
  occurs "{"%char pre = false -> occurs "}"%char post = false ->
  let text := pre +:+ lbrace +:+ body +:+ rbrace +:+ post in
  find text "{"%char = Z.of_nat (String.length pre) /\
  rfind text "}"%char = Z.of_nat (String.length pre) + 1 + Z.of_nat (String.length body) /\
  slice text (find text "{"%char) (rfind text "}"%char + 1) = lbrace +:+ body +:+ rbrace.
Proof.
  intros Hpre Hpost text.
  assert (find text "{"%char = Z.of_nat (String.length pre)) as Hf
    by (apply (find_first pre (body +:+ rbrace +:+ post)); assumption).
  assert (rfind text "}"%char = Z.of_nat (String.length pre) + 1 + Z.of_nat (String.length body))
    as Hr.
  { unfold text. replace (pre +:+ lbrace +:+ body +:+ rbrace +:+ post)
      with ((pre +:+ lbrace +:+ body) +:+ String "}"%char post)
      by (now rewrite !string_app_assoc).
    rewrite (rfind_last _ _ _ Hpost), !string_app_length. unfold lbrace.
    cbn [String.length]. lia. }
  split; [exact Hf|]. split; [exact Hr|]. rewrite Hf, Hr. unfold text.
  replace (pre +:+ lbrace +:+ body +:+ rbrace +:+ post)
    with (pre +:+ (lbrace +:+ body +:+ rbrace) +:+ post)
    by (now rewrite !string_app_assoc).
  rewrite <- (slice_middle pre (lbrace +:+ body +:+ rbrace) post) at 2.
  f_equal. rewrite !string_app_length. unfold lbrace, rbrace. cbn [String.length]. lia.
Qed.

Lemma first_occurrence_unique (c : ascii) (pre1 rest1 pre2 rest2 : string) :
  pre1 +:+ String c rest1 = pre2 +:+ String c rest2 ->
  occurs c pre1 = false -> occurs c pre2 = false ->
  pre1 = pre2 /\ rest1 = rest2.
Proof.
  revert pre2. induction pre1 as [|a pre1 IH]; intros [|b pre2];
    rewrite ?string_app_nil_l, ?string_app_cons; cbn [occurs].
  - intros [= ->]. auto.
  - intros [= <- _] _ H. rewrite Ascii.eqb_refl in H. discriminate.
  - intros [= -> _] H. rewrite Ascii.eqb_refl in H. discriminate.
  - intros [= <- H] [_ H1]%orb_false_iff [_ H2]%orb_false_iff.
    destruct (IH pre2 H H1 H2) as [-> ->]. auto.
Qed.

Lemma last_occurrence_unique (c : ascii) (x1 post1 x2 post2 : string) :
  x1 +:+ String c post1 = x2 +:+ String c post2 ->
  occurs c post1 = false -> occurs c post2 = false ->
  x1 = x2 /\ post1 = post2.
Proof.
  intros H H1 H2.
  assert (forall x post, occurs c post = false -> occurs c (x +:+ String c post) = true)
    as Hocc.
  { intros x post _. rewrite occurs_app. cbn [occurs]. rewrite Ascii.eqb_refl.
    apply orb_true_r. }
  revert x2 H. induction x1 as [|a x1 IH]; intros [|b x2];
    rewrite ?string_app_nil_l, ?string_app_cons.
  - intros [= ->]. auto.
  - intros [= <- ->]. rewrite Hocc in H1 by assumption. discriminate.
  - intros [= -> <-]. rewrite Hocc in H2 by assumption. discriminate.
  - intros [= <- H]. destruct (IH x2 H) as [-> ->]. auto.
Qed.

Lemma extract_json_block_unfold (text : string) :
  _extract_json_block text
  = match first_block (strip text) with
    | Some m => Ok m
    | None =>
        if (find text "{"%char =? -1) || (rfind text "}"%char =? -1)
           || (rfind text "}"%char <=? find text "{"%char)
        then Raise (ValueError "No JSON object found in model output.")
        else Ok (slice text (find text "{"%char) (rfind text "}"%char + 1))
    end.
Proof. unfold _extract_json_block. now rewrite search_json_block. Qed.

Lemma first_block_is_Some (pre body : string) :
  is_Some (first_block (pre +:+ lbrace +:+ body +:+ rbrace)).
Proof.
  induction pre as [|a pre IH].
  - rewrite first_block_found by reflexivity. eauto.
  - rewrite string_app_cons. cbn [first_block].
    destruct (opens _); [eauto | exact IH].
Qed.

(** From the first opening brace to the last closing brace, on either
    branch. *)
Lemma extract_json_block_found (pre body post : string) :
  occurs "{"%char pre = false -> occurs "}"%char post = false ->
  _extract_json_block (pre +:+ lbrace +:+ body +:+ rbrace +:+ post)
  = Ok (lbrace +:+ body +:+ rbrace).
Proof.
  intros Hpre Hpost. set (text := pre +:+ lbrace +:+ body +:+ rbrace +:+ post).
  rewrite extract_json_block_unfold.
  destruct (first_block (strip text)) as [m|] eqn:Hm.
  - apply first_block_strip in Hm as (p & b & Hs & -> & Hp).
    destruct (strip_decomp text) as (w1 & w2 & Ht & Hw1 & Hw2).
    rewrite Hs in Ht. unfold text in Ht.
    assert ((w1 +:+ p) +:+ String "{"%char (b +:+ rbrace +:+ w2)
            = pre +:+ String "{"%char (body +:+ rbrace +:+ post)) as Heq.
    { change (String "{"%char ?x) with (lbrace +:+ x).
      rewrite !string_app_assoc in *. now rewrite <- Ht. }
    apply first_occurrence_unique in Heq as [_ Heq]; [| |assumption].
    2:{ rewrite occurs_app, Hp, orb_false_r. now apply occurs_space. }
    assert (b +:+ String "}"%char w2 = body +:+ String "}"%char post) as Heq' by exact Heq.
    apply last_occurrence_unique in Heq' as [-> _]; [reflexivity| |assumption].
    now apply occurs_space.
  - destruct (fallback_found pre body post Hpre Hpost) as (Hf & Hr & Hslice).
    fold text in Hf, Hr, Hslice. rewrite Hslice, Hf, Hr.
    destruct (Z.eqb_spec (Z.of_nat (String.length pre)) (-1)); [lia|].
    destruct (Z.eqb_spec (Z.of_nat (String.length pre) + 1 + Z.of_nat (String.length body)) (-1));
      [lia|].
    destruct (Z.leb_spec (Z.of_nat (String.length pre) + 1 + Z.of_nat (String.length body))
                (Z.of_nat (String.length pre))); [lia|].
    reflexivity.
Qed.

Lemma fallback_raises (text : string) :
  first_block (strip text) = None ->
  (forall pre body post,
     occurs "{"%char pre = false -> occurs "}"%char post = false ->
     text <> pre +:+ lbrace +:+ body +:+ rbrace +:+ post) ->
  _extract_json_block text = Raise (ValueError "No JSON object found in model output.").
Proof.
  intros Hm Hno. rewrite extract_json_block_unfold, Hm.
  destruct (Z.eqb_spec (find text "{"%char) (-1)) as [|Hf]; [reflexivity|].
  destruct (Z.eqb_spec (rfind text "}"%char) (-1)) as [|Hr]; [reflexivity|].
  destruct (Z.leb_spec (rfind text "}"%char) (find text "{"%char)) as [|Hlt];
    [reflexivity|].
  exfalso. pose proof (find_ge text "{"%char). pose proof (rfind_ge text "}"%char).
  destruct (find_inv text "{"%char) as (pre & rest & Ht & Hpre); [lia|].
  destruct (rfind_inv text "}"%char) as (x & post & Ht' & Hpost); [lia|].
  pose proof (find_first pre rest _ Hpre) as Hf'. rewrite <- Ht in Hf'.
  pose proof (rfind_last x post _ Hpost) as Hr'. rewrite <- Ht' in Hr'.
  destruct (string_app_split pre rest x post "{"%char "}"%char) as (body & -> & ->);
    [congruence | lia |].
  apply (Hno pre body post Hpre Hpost). exact Ht.
Qed.

(** C3.  When the pattern matches the stripped text, the match is
    returned, and it is the part of the stripped text from its first
    opening brace to its end, which is a closing brace; the pattern matches
    whenever the stripped text ends in a closing brace with an opening
    brace before it.  When it does not match, the result is the part of
    the text from its first opening brace to its last closing brace if
    they come in that order, and [ValueError] otherwise.  In particular an
    object between two brace-free stretches of prose is returned as it
    is. *)
Theorem extract_json_block_spec (text : string) :
  (forall m, Re.search json_block_re (strip text) = Some m ->
     _extract_json_block text = Ok m /\
     exists pre body,
       strip text = pre +:+ m /\ m = lbrace +:+ body +:+ rbrace /\
       occurs "{"%char pre = false)
  /\ (forall pre body, strip text = pre +:+ lbrace +:+ body +:+ rbrace ->
        is_Some (Re.search json_block_re (strip text)))
  /\ (Re.search json_block_re (strip text) = None ->
      (forall pre body post,
         text = pre +:+ lbrace +:+ body +:+ rbrace +:+ post ->
         occurs "{"%char pre = false -> occurs "}"%char post = false ->
         _extract_json_block text = Ok (lbrace +:+ body +:+ rbrace))
      /\ ((forall pre body post,
             occurs "{"%char pre = false -> occurs "}"%char post = false ->
             text <> pre +:+ lbrace +:+ body +:+ rbrace +:+ post) ->
          _extract_json_block text
            = Raise (ValueError "No JSON object found in model output.")))
  /\ (forall pre body post,
        text = pre +:+ lbrace +:+ body +:+ rbrace +:+ post ->
        occurs "{"%char pre = false -> occurs "}"%char pre = false ->
        occurs "{"%char post = false -> occurs "}"%char post = false ->
        _extract_json_block text = Ok (lbrace +:+ body +:+ rbrace)).
Proof.
  rewrite search_json_block. repeat split.
  - rewrite extract_json_block_unfold, H. reflexivity.
  - apply first_block_strip in H as (pre & body & Hs & -> & Hpre).
    exists pre, body. auto.
  - intros pre body ->. apply first_block_is_Some.
  - intros pre body post -> Hpre Hpost. now apply extract_json_block_found.
  - intros Hno. now apply fallback_raises.
  - intros pre body post -> Hpre _ _ Hpost. now apply extract_json_block_found.
Qed.

Lemma no_brace_no_block (text : string) :
  occurs "{"%char text = false ->
  forall pre body post, text <> pre +:+ lbrace +:+ body +:+ rbrace +:+ post.
Proof.
  intros H pre body post ->. rewrite occurs_app in H.
  change (lbrace +:+ ?x) with (String "{"%char x) in H. cbn [occurs] in H.
  rewrite Ascii.eqb_refl, orb_true_r in H. discriminate.
Qed.

Lemma extract_json_block_spec_witness :
  _extract_json_block ("  Answer: {a}" +:+ newline) = Ok "{a}"
  /\ _extract_json_block "Sure {a{b}} done" = Ok "{a{b}}"
  /\ _extract_json_block "no object here" = Raise (ValueError "No JSON object found in model output.")
  /\ _extract_json_block "Here you go: {'q': 1} Good luck!" = Ok "{'q': 1}".
Proof.
  split; [|split; [|split]].
  - apply (proj1 (extract_json_block_spec ("  Answer: {a}" +:+ newline)) "{a}").
    vm_compute. reflexivity.
  - apply (proj1 (proj1 (proj2 (proj2 (extract_json_block_spec "Sure {a{b}} done")))
                    ltac:(vm_compute; reflexivity))
             "Sure " "a{b}" " done"); vm_compute; reflexivity.
  - apply (proj2 (proj1 (proj2 (proj2 (extract_json_block_spec "no object here")))
                    ltac:(vm_compute; reflexivity))).
    intros pre body post _ _. apply no_brace_no_block. vm_compute. reflexivity.
  - apply (proj2 (proj2 (proj2 (extract_json_block_spec "Here you go: {'q': 1} Good luck!")))
             "Here you go: " "'q': 1" " Good luck!"); vm_compute; reflexivity.
Defined.

(** ** evaluate_answers *)

Lemma recorded_typed (ua : gmap string pyval) (level : string) (i : nat) :
  answers_typed ua -> exists s, recorded ua level i = PStr s.
Proof.
  intros Hua. unfold recorded. destruct (ua !! answer_key level i) as [v|] eqn:Hv.
  - destruct (Hua _ _ Hv) as [s ->]. eauto.
  - eauto.
Qed.

Lemma evaluate_question_typed (ua : gmap string pyval) (level : string)
    (i : nat) (q : pyval) (acc : Z * list pyval) :
  question_typed q -> (exists s, recorded ua level i = PStr s) ->
  evaluate_question ua level (i, q) acc
  = Ok (fst acc + (if is_right ua (level, (i, q)) then 1 else 0),
        (snd acc ++ [entry_for ua (level, (i, q))])%list).
Proof.
  intros (d & c & -> & Hc & [t Ht] & [e He]) [s Hs].
  unfold evaluate_question, entry_for, verdict, is_right, correct_letter_of, field.
  cbn [fst snd getitem]. fold (recorded ua level i).
  rewrite Hc, Ht, He, Hs. cbn [bind method_strip default from_option id str_of].
  unfold normalize.
  destruct (String.eqb (upper (strip s)) (upper (strip c))); cbn [fst snd].
  - reflexivity.
  - now rewrite Z.add_0_r.
Qed.

Lemma evaluate_questions_typed (ua : gmap string pyval) (level : string)
    (l : list (nat * pyval)) (acc : Z * list pyval) :
  answers_typed ua -> Forall (fun iq => question_typed (snd iq)) l ->
  for_each_acc l (evaluate_question ua level) acc
  = Ok (fst acc + Z.of_nat (length (List.filter (is_right ua) (map (pair level) l))),
        (snd acc ++ map (entry_for ua) (map (pair level) l))%list).
Proof.
  intros Hua Hl. revert acc. induction Hl as [|[i q] l Hq _ IH]; intros acc.
  - cbn. rewrite Z.add_0_r, app_nil_r. now destruct acc.
  - cbn [for_each_acc]. rewrite (evaluate_question_typed ua level i q acc Hq)
      by (now apply recorded_typed).
    cbn [bind]. rewrite IH. cbn [fst snd map List.filter].
    destruct (is_right ua (level, (i, q))); cbn [length];
      rewrite <- app_assoc; f_equal; f_equal; lia.
Qed.

Lemma enumerate_from_typed (qs : list pyval) (i : nat) :
  Forall question_typed qs ->
  Forall (fun iq : nat * pyval => question_typed (snd iq)) (enumerate_from i qs).
Proof.
  intros H. revert i. induction H as [|q qs Hq _ IH]; intros i; constructor; auto.
Qed.

Lemma questions_in_cons (quiz : pyval) (level : string) (ls : list string) :
  questions_in quiz (level :: ls)
  = (map (pair level) (enumerate (questions_of quiz level)) ++ questions_in quiz ls)%list.
Proof. reflexivity. Qed.

Lemma evaluate_levels_typed (ua : gmap string pyval) (d : gmap string pyval)
    (ls : list string) (acc : Z * list pyval) :
  answers_typed ua ->
  (forall level, level ∈ ls ->
     exists qs, d !! level = Some (PList qs) /\ Forall question_typed qs) ->
  for_each_acc ls (evaluate_level ua (PDict d)) acc
  = Ok (fst acc + Z.of_nat (length (List.filter (is_right ua) (questions_in (PDict d) ls))),
        (snd acc ++ map (entry_for ua) (questions_in (PDict d) ls))%list).
Proof.
  intros Hua. revert acc. induction ls as [|level ls IH]; intros acc Hls.
  - cbn. rewrite Z.add_0_r, app_nil_r. now destruct acc.
  - destruct (Hls level) as (qs & Hqs & Hall); [left|].
    cbn [for_each_acc]. unfold evaluate_level at 1. cbn [getitem]. rewrite Hqs.
    cbn [bind iterate].
    rewrite (evaluate_questions_typed ua level (enumerate qs) acc Hua
               (enumerate_from_typed qs 0 Hall)).
    cbn [bind]. rewrite IH by (intros l Hl; apply Hls; now right).
    rewrite questions_in_cons. cbn [fst snd questions_of]. rewrite Hqs.
    rewrite List.filter_app, !map_app, !length_app, <- app_assoc.
    f_equal. f_equal. lia.
Qed.

Lemma evaluate_answers_typed (ua : gmap string pyval) (quiz : pyval) :
  quiz_typed quiz -> answers_typed ua ->
  evaluate_answers ua quiz
  = Ok (Z.of_nat (length (List.filter (is_right ua) (all_questions quiz))),
        map (entry_for ua) (all_questions quiz)).
Proof.
  intros (d & -> & Hd) Hua. unfold evaluate_answers.
  now rewrite (evaluate_levels_typed ua d levels (0, []) Hua Hd).
Qed.


Lemma example_question_typed (text correct : string) :
  question_typed (example_question text correct).
Proof.
  exists (example_fields text correct), correct. unfold example_fields.
  repeat (rewrite lookup_insert_eq || rewrite lookup_insert_ne by discriminate).
  eauto.
Qed.

Lemma answers_typed_empty : answers_typed ∅.
Proof. intros k v H. rewrite lookup_empty in H. discriminate. Qed.

Lemma answers_typed_insert (ua : gmap string pyval) (k s : string) :
  answers_typed ua -> answers_typed (<[k := PStr s]> ua).
Proof.
  intros Hua k' v. rewrite lookup_insert. destruct (decide (k = k')).
  - intros [= <-]. eauto.
  - apply Hua.
Qed.

Lemma two_question_quiz_typed : quiz_typed two_question_quiz.
Proof.
  eexists. split; [reflexivity|].
  apply (level_cases (fun level => exists qs, _ !! level = Some (PList qs) /\ _));
    eexists; (split; [vm_compute; reflexivity|]);
    repeat constructor; apply example_question_typed.
Qed.






(** *** An answer recorded as [None] *)

Lemma for_each_acc_raises {A S : Type} (l : list A) (body : A -> S -> result S) (x : A) :
  x ∈ l -> (forall s, raises (body x s)) -> forall s, raises (for_each_acc l body s).
Proof.
  intros Hx Hbody. induction l as [|y l IH]; intros s; [inversion Hx|].
  cbn [for_each_acc]. destruct (body y s) as [s'|e] eqn:Hy; cbn [bind].
  - apply elem_of_cons in Hx as [->|Hx].
    + destruct (Hbody s) as [e He]. congruence.
    + now apply IH.
  - exists e. reflexivity.
Qed.

Lemma for_each_acc_ok_or {A S : Type} (l : list A) (body : A -> S -> result S) (e : exn) :
  (forall x, x ∈ l -> forall s, ok_or e (body x s)) ->
  forall s, ok_or e (for_each_acc l body s).
Proof.
  induction l as [|y l IH]; intros Hbody s.
  - left. exists s. reflexivity.
  - cbn [for_each_acc]. destruct (Hbody y (list_elem_of_here _ _) s) as [[s' ->]| ->];
      cbn [bind].
    + apply IH. intros x Hx. apply Hbody. now right.
    + now right.
Qed.

Lemma evaluate_question_none (ua : gmap string pyval) (level : string)
    (i : nat) (q : pyval) (acc : Z * list pyval) :
  ua !! answer_key level i = Some PNone ->
  raises (evaluate_question ua level (i, q) acc).
Proof.
  intros Hnone. unfold evaluate_question, raises. cbn [fst snd].
  destruct (getitem q "correct") as [c|e]; cbn [bind]; [|eauto].
  destruct (method_strip c) as [s|e]; cbn [bind]; [|eauto].
  rewrite Hnone. cbn. eauto.
Qed.

Lemma evaluate_question_ok_or (ua : gmap string pyval) (level : string)
    (i : nat) (q : pyval) (acc : Z * list pyval) :
  question_typed q -> ok_or AttributeError (evaluate_question ua level (i, q) acc).
Proof.
  intros Hq. destruct (recorded ua level i) as [| | | |s| |] eqn:Hr;
    try (right; destruct Hq as (qd & c & -> & Hc & _ & _);
         unfold evaluate_question; cbn [fst snd getitem]; rewrite Hc;
         fold (recorded ua level i); rewrite Hr; reflexivity).
  left. rewrite (evaluate_question_typed ua level i q acc Hq) by eauto. eauto.
Qed.

Lemma evaluate_answers_ok_or (ua : gmap string pyval) (quiz : pyval) :
  quiz_typed quiz -> ok_or AttributeError (evaluate_answers ua quiz).
Proof.
  intros (d & -> & Hd). unfold evaluate_answers. apply for_each_acc_ok_or.
  intros level Hlevel acc. destruct (Hd level Hlevel) as (qs & Hqs & Hall).
  unfold evaluate_level. cbn [getitem]. rewrite Hqs. cbn [bind iterate].
  apply for_each_acc_ok_or. intros [i q] Hiq acc'.
  apply evaluate_question_ok_or. rewrite Forall_forall in Hall. apply Hall.
  apply enumerate_elem in Hiq. apply list_elem_of_lookup. eauto.
Qed.

Lemma evaluate_answers_raises (ua : gmap string pyval) (quiz : pyval)
    (level : string) (qs : list pyval) (i : nat) :
  level ∈ levels -> getitem quiz level = Ok (PList qs) -> (i < length qs)%nat ->
  ua !! answer_key level i = Some PNone ->
  raises (evaluate_answers ua quiz).
Proof.
  intros Hlevel Hqs Hi Hnone. unfold evaluate_answers.
  apply (for_each_acc_raises _ _ level Hlevel). intros acc.
  unfold evaluate_level. rewrite Hqs. cbn [bind iterate].
  destruct (lookup_lt_is_Some_2 qs i Hi) as [q Hq].
  apply (for_each_acc_raises _ _ (i, q)); [now apply enumerate_elem|].
  intros acc'. now apply evaluate_question_none.
Qed.

(** C9.  A [None] recorded for a question of the quiz makes the
    evaluator raise ([AttributeError] on a well-formed quiz); that is the
    value the loop before the final buttons records for a submitted
    question whose radio has no selection, so finishing raises then; with
    the key absent the evaluator returns. *)
Theorem evaluate_answers_none (quiz : pyval) (level : string)
    (qs : list pyval) (i : nat) :
  level ∈ levels -> getitem quiz level = Ok (PList qs) -> (i < length qs)%nat ->
  (forall ua, ua !! answer_key level i = Some PNone ->
     raises (evaluate_answers ua quiz) /\
     (quiz_typed quiz -> evaluate_answers ua quiz = Raise AttributeError))
  /\ (forall st,
        App.quiz_data st = quiz ->
        is_Some (App.submitted_q st !! answer_key level i) ->
        App.session_get st (answer_key level i) = PNone ->
        App.user_answers (App.sync_user_answers st) !! answer_key level i = Some PNone /\
        raises (App.finish st))
  /\ (quiz_typed quiz ->
      forall ua, answers_typed ua -> ua !! answer_key level i = None ->
        exists r, evaluate_answers ua quiz = Ok r).
Proof.
  intros Hlevel Hqs Hi.
  assert (forall ua, ua !! answer_key level i = Some PNone ->
            raises (evaluate_answers ua quiz)) as Hraises
    by (intros ua; now apply (evaluate_answers_raises ua quiz level qs i)).
  split; [|split].
  - intros ua Hnone. split; [now apply Hraises|].
    intros Htyped. destruct (Hraises ua Hnone) as [e He].
    destruct (evaluate_answers_ok_or ua quiz Htyped) as [[r Hr]|Hr]; congruence.
  - intros st <- [v Hv] Hget.
    assert (App.user_answers (App.sync_user_answers st) !! answer_key level i
            = Some PNone) as Hsync.
    { cbn [App.sync_user_answers App.user_answers].
      apply lookup_union_Some_l. rewrite map_lookup_imap, Hv. cbn. now rewrite Hget. }
    split; [exact Hsync|].
    unfold App.finish. destruct (Hraises _ Hsync) as [e He].
    cbn [App.sync_user_answers App.quiz_data] in *. rewrite He. exists e. reflexivity.
  - intros Htyped ua Hua _. eexists. now apply evaluate_answers_typed.
Qed.

Lemma evaluate_answers_none_witness :
  evaluate_answers (<["basic_0" := PNone]> ∅) two_question_quiz = Raise AttributeError
  /\ raises (App.finish unselected_session)
  /\ exists r, evaluate_answers ∅ two_question_quiz = Ok r.
Proof.
  destruct (evaluate_answers_none two_question_quiz "basic"
              [example_question "q1" "A"; example_question "q2" "B"] 0%nat)
    as (Hnone & Hfinish & Habsent).
  - exact basic_level.
  - vm_compute. reflexivity.
  - vm_compute. lia.
  - split; [|split].
    + apply Hnone; [vm_compute; reflexivity | exact two_question_quiz_typed].
    + apply (Hfinish unselected_session).
      * reflexivity.
      * exists (PBool true). vm_compute. reflexivity.
      * vm_compute. reflexivity.
    + apply (Habsent two_question_quiz_typed ∅ answers_typed_empty).
      vm_compute. reflexivity.
Defined.

(** ** The generation pipeline *)

Section PipelineFrame.

Context {pdf : Type}.
Context (PdfReader : pdf -> result (list (result string))).
Context (split_text : Z -> Z -> string -> result (list string)).
Context (chain_run : string -> spec_float -> Z -> string -> string -> result string).
Context (json_loads : string -> result pyval).

Lemma extraction_step_frame (sb : App.sidebar pdf) (file : pdf) (st : App.session_state) :
  let st1 := snd (App.extraction_step pdf PdfReader split_text sb file st) in
  App.quiz_data st1 = App.quiz_data st /\
  App.user_answers st1 = App.user_answers st /\
  App.submitted_q st1 = App.submitted_q st /\
  App.results_cache st1 = App.results_cache st /\
  App.widget_values st1 = App.widget_values st.
Proof.
  unfold App.extraction_step.
  destruct (extract_text_from_pdf pdf PdfReader file) as [text|e]; cbn; [|auto].
  destruct (negb (truthy (strip text))); cbn; [auto|].
  destruct (chunk_text split_text text _ _); cbn; auto.
Qed.

(** C8, amended.  When [generate_quiz_from_text] raises, the run ends
    without an uncaught exception, with the quiz and the cached results
    cleared, the banner as the extraction step set it, and the recorded
    answers, the submission locks, the widget values and the sidebar as
    they were; when the extraction or the splitting raises, the session
    state is not touched at all. *)
Theorem generation_error_frame (sb : App.sidebar pdf) (file : pdf)
    (st : App.session_state) :
  App.pdf_file sb = Some file ->
  let r := App.generate_pipeline pdf PdfReader split_text chain_run json_loads true sb st in
  let extracted := App.extraction_step pdf PdfReader split_text sb file st in
  (forall material e,
     fst extracted = Some material -> truthy material = true ->
     generate_quiz_from_text chain_run json_loads material (App.n_per_level sb)
       App.default_model_name App.default_temperature = Raise e ->
     App.run_sidebar r = sb /\ App.run_uncaught r = None /\
     App.run_session r
     = {| App.quiz_data := PNone;
          App.user_answers := App.user_answers st;
          App.submitted_q := App.submitted_q st;
          App.results_cache := None;
          App.material_info := App.material_info (snd extracted);
          App.widget_values := App.widget_values st |})
  /\ (forall e, extract_text_from_pdf pdf PdfReader file = Raise e ->
        r = {| App.run_sidebar := sb; App.run_session := st; App.run_uncaught := None |})
  /\ (forall text e,
        extract_text_from_pdf pdf PdfReader file = Ok text ->
        truthy (strip text) = true ->
        chunk_text split_text text (App.chunk_size sb) (App.chunk_overlap sb) = Raise e ->
        r = {| App.run_sidebar := sb; App.run_session := st; App.run_uncaught := None |}).
Proof.
  intros Hfile r extracted. subst r. unfold App.generate_pipeline. rewrite Hfile.
  fold extracted. split; [|split].
  - intros material e Hm Htruthy Hgen. unfold App.generation_step.
    rewrite Hm, Htruthy, Hgen. cbn [fst snd App.run_sidebar App.run_uncaught App.run_session].
    split; [reflexivity|]. split; [reflexivity|].
    destruct (extraction_step_frame sb file st) as (_ & Hua & Hsq & _ & Hwv).
    fold extracted in Hua, Hsq, Hwv. unfold App.clear_quiz. now rewrite Hua, Hsq, Hwv.
  - intros e He. subst extracted. unfold App.extraction_step. rewrite He. reflexivity.
  - intros text e Htext Htruthy Hchunk. subst extracted. unfold App.extraction_step.
    rewrite Htext, Htruthy, Hchunk. reflexivity.
Qed.

End PipelineFrame.

(** C8, as stated, fails: after the failed run the cached results are
    gone and the banner is another, so the state is not the prior one with
    only the quiz cleared. *)
Lemma failed_run_clears_results :
  generate_quiz_from_text failing_chain example_loads
    "Photosynthesis turns light into sugar." 5
    App.default_model_name App.default_temperature
    = Raise (ExternalError "model call failed")
  /\ App.results_cache session_in_progress
     = Some (1, [feedback_entry (PStr "q1") "Correct" (PStr "because")])
  /\ App.results_cache (App.run_session failed_run) = None
  /\ App.material_info (App.run_session failed_run)
     = "Using 1 chunks. Sent 1 chunk(s) to the model."
  /\ ~ only_quiz_cleared session_in_progress (App.run_session failed_run).
Proof.
  split; [vm_compute; reflexivity|]. split; [reflexivity|].
  split; [vm_compute; reflexivity|]. split; [vm_compute; reflexivity|].
  intros H. apply (f_equal App.results_cache) in H. vm_compute in H. discriminate.
Qed.

Lemma generation_error_frame_witness :
  App.run_sidebar failed_run = example_sidebar
  /\ App.run_uncaught failed_run = None
  /\ App.run_session failed_run
     = {| App.quiz_data := PNone;
          App.user_answers := first_answered;
          App.submitted_q := <["basic_0" := PBool true]> ∅;
          App.results_cache := None;
          App.material_info := "Using 1 chunks. Sent 1 chunk(s) to the model.";
          App.widget_values := <["basic_0" := PStr "A"]> ∅ |}.
Proof.
  destruct (generation_error_frame one_page_reader one_chunk_splitter failing_chain
              example_loads example_sidebar tt session_in_progress eq_refl)
    as (Hgen & _ & _).
  destruct (Hgen "Photosynthesis turns light into sugar."
              (ExternalError "model call failed"))
    as (Hsb & Hun & Hst); [vm_compute; reflexivity..|].
  unfold failed_run. split; [exact Hsb|]. split; [exact Hun|]. rewrite Hst. vm_compute. reflexivity.
Defined.

(** * Further properties *)

(** ** _extract_json_block, on every text *)

Lemma block_of_find (text pre body post : string) :
  block_of text pre body post ->
  find text "{"%char = Z.of_nat (String.length pre) /\
  rfind text "}"%char = Z.of_nat (String.length pre) + 1 + Z.of_nat (String.length body) /\
  slice text (find text "{"%char) (rfind text "}"%char + 1) = lbrace +:+ body +:+ rbrace.
Proof. intros (-> & Hpre & Hpost). now apply fallback_found. Qed.

Lemma block_of_extract (text pre body post : string) :
  block_of text pre body post ->
  _extract_json_block text = Ok (lbrace +:+ body +:+ rbrace).
Proof. intros (-> & Hpre & Hpost). now apply extract_json_block_found. Qed.

(** A text has such a block exactly when its first opening brace comes
    before its last closing brace. *)
Lemma block_of_exists (text : string) :
  0 <= find text "{"%char -> find text "{"%char < rfind text "}"%char ->
  exists pre body post, block_of text pre body post.
Proof.
  intros Hf Hlt.
  destruct (find_inv text "{"%char Hf) as (pre & rest & Ht & Hpre).
  destruct (rfind_inv text "}"%char) as (x & post & Ht' & Hpost); [lia|].
  pose proof (find_first pre rest _ Hpre) as Hf'. rewrite <- Ht in Hf'.
  pose proof (rfind_last x post _ Hpost) as Hr'. rewrite <- Ht' in Hr'.
  destruct (string_app_split pre rest x post "{"%char "}"%char) as (body & -> & ->);
    [congruence | lia |].
  exists pre, body, post. split; [exact Ht | auto].
Qed.

Lemma extract_json_block_cases (text : string) :
  (exists pre body post,
     block_of text pre body post /\
     _extract_json_block text = Ok (lbrace +:+ body +:+ rbrace))
  \/ ((forall pre body post, ~ block_of text pre body post) /\
      _extract_json_block text = Raise (ValueError "No JSON object found in model output.")).
Proof.
  destruct (Z.leb_spec 0 (find text "{"%char)) as [Hf|Hf];
    [destruct (Z.ltb_spec (find text "{"%char) (rfind text "}"%char)) as [Hlt|Hlt]|].
  - left. destruct (block_of_exists text Hf Hlt) as (pre & body & post & Hb).
    exists pre, body, post. split; [exact Hb | now apply (block_of_extract text pre body post)].
  - right. assert (forall pre body post, ~ block_of text pre body post) as Hno.
    { intros pre body post Hb. apply block_of_find in Hb as (Hf' & Hr' & _). lia. }
    split; [exact Hno|]. apply fallback_raises.
    + destruct (first_block (strip text)) as [m|] eqn:Hm; [|reflexivity]. exfalso.
      apply first_block_strip in Hm as (p & b & Hs & _ & Hp).
      destruct (strip_decomp text) as (w1 & w2 & Ht & Hw1 & Hw2).
      apply (Hno (w1 +:+ p) b w2). split; [|split].
      * rewrite Ht, Hs. now rewrite !string_app_assoc.
      * rewrite occurs_app, Hp, orb_false_r. now apply occurs_space.
      * now apply occurs_space.
    + intros pre body post Hpre Hpost Ht. apply (Hno pre body post). now split.
  - right. assert (forall pre body post, ~ block_of text pre body post) as Hno.
    { intros pre body post Hb. apply block_of_find in Hb as (Hf' & _ & _). lia. }
    split; [exact Hno|]. apply fallback_raises.
    + destruct (first_block (strip text)) as [m|] eqn:Hm; [|reflexivity]. exfalso.
      apply first_block_strip in Hm as (p & b & Hs & _ & Hp).
      destruct (strip_decomp text) as (w1 & w2 & Ht & Hw1 & Hw2).
      apply (Hno (w1 +:+ p) b w2). split; [|split].
      * rewrite Ht, Hs. now rewrite !string_app_assoc.
      * rewrite occurs_app, Hp, orb_false_r. now apply occurs_space.
      * now apply occurs_space.
    + intros pre body post Hpre Hpost Ht. apply (Hno pre body post). now split.
Qed.

(** X1.  The pattern never changes the outcome: on every text the result
    is what the fallback alone computes, the slice from the first opening
    brace to the last closing brace when they come in that order, and
    [ValueError] otherwise. *)
Theorem extract_json_block_is_fallback (text : string) :
  _extract_json_block text
  = if (0 <=? find text "{"%char) && (find text "{"%char <? rfind text "}"%char)
    then Ok (slice text (find text "{"%char) (rfind text "}"%char + 1))
    else Raise (ValueError "No JSON object found in model output.").
Proof.
  destruct (extract_json_block_cases text) as [(pre & body & post & Hb & ->)|[Hno ->]].
  - apply block_of_find in Hb as (Hf & Hr & ->). rewrite Hf, Hr.
    destruct (Z.leb_spec 0 (Z.of_nat (String.length pre))); [|lia].
    destruct (Z.ltb_spec (Z.of_nat (String.length pre))
                (Z.of_nat (String.length pre) + 1 + Z.of_nat (String.length body)));
      [reflexivity | lia].
  - destruct (Z.leb_spec 0 (find text "{"%char)) as [Hf|Hf]; [|reflexivity].
    destruct (Z.ltb_spec (find text "{"%char) (rfind text "}"%char)) as [Hlt|Hlt];
      [|reflexivity].
    destruct (block_of_exists text Hf Hlt) as (pre & body & post & Hb).
    now destruct (Hno pre body post).
Qed.

(** X2.  What is returned is a piece of the text that opens with a brace
    and closes with one, and extracting from it again gives it back. *)
Theorem extract_json_block_idempotent (text m : string) :
  _extract_json_block text = Ok m ->
  (exists pre body post,
     text = pre +:+ m +:+ post /\ m = lbrace +:+ body +:+ rbrace)
  /\ _extract_json_block m = Ok m.
Proof.
  intros H.
  destruct (extract_json_block_cases text) as [(pre & body & post & Hb & He)|[_ He]];
    [|congruence].
  rewrite He in H. injection H as <-. split.
  - exists pre, body, post. split; [|reflexivity].
    destruct Hb as (-> & _ & _). now rewrite !string_app_assoc.
  - apply (block_of_extract _ "" body ""). split; [|split; reflexivity].
    now rewrite string_app_nil_l, string_app_nil_r.
Qed.

Lemma extract_json_block_idempotent_witness :
  _extract_json_block "{'q': 1}" = Ok "{'q': 1}".
Proof.
  apply (proj2 (extract_json_block_idempotent
                  "Here you go: {'q': 1} Good luck!" "{'q': 1}"
                  ltac:(vm_compute; reflexivity))).
Defined.

Lemma prefix_split (w x pre y : string) (c : ascii) :
  w +:+ x = pre +:+ String c y -> occurs c w = false ->
  exists pre', pre = w +:+ pre' /\ x = pre' +:+ String c y.
Proof.
  revert pre. induction w as [|a w IH]; intros pre.
  - rewrite string_app_nil_l. intros -> _. exists pre. auto.
  - rewrite string_app_cons. cbn [occurs]. intros H [Ha Hw]%orb_false_iff.
    destruct pre as [|b pre].
    + rewrite string_app_nil_l in H. injection H as -> _.
      rewrite Ascii.eqb_refl in Ha. discriminate.
    + rewrite string_app_cons in H. injection H as <- H.
      destruct (IH pre H Hw) as (pre' & -> & ->). exists pre'. auto.
Qed.

Lemma suffix_split (x w a post : string) (c : ascii) :
  x +:+ w = a +:+ String c post -> occurs c w = false ->
  exists post', post = post' +:+ w /\ x = a +:+ String c post'.
Proof.
  intros H Hw. revert x H. induction a as [|b a IH]; intros [|d x];
    rewrite ?string_app_nil_l, ?string_app_cons.
  - intros ->. cbn [occurs] in Hw. rewrite Ascii.eqb_refl in Hw. discriminate.
  - intros [= -> <-]. exists x. auto.
  - intros ->. cbn [occurs] in Hw. rewrite occurs_app in Hw. cbn [occurs] in Hw.
    rewrite Ascii.eqb_refl in Hw. cbn [orb] in Hw. rewrite !orb_true_r in Hw.
    discriminate.
  - intros [= -> H]. destruct (IH x H) as (post' & -> & ->). exists post'. auto.
Qed.

(** X3.  White space around the text never changes what is extracted. *)
Theorem extract_json_block_padding (w1 text w2 : string) :
  all_space w1 = true -> all_space w2 = true ->
  _extract_json_block (w1 +:+ text +:+ w2) = _extract_json_block text.
Proof.
  intros Hw1 Hw2.
  assert (occurs "{"%char w1 = false) as Hw1' by (now apply occurs_space).
  assert (occurs "}"%char w2 = false) as Hw2' by (now apply occurs_space).
  destruct (extract_json_block_cases text) as [(pre & body & post & Hb & ->)|[Hno ->]].
  - apply (block_of_extract _ (w1 +:+ pre) body (post +:+ w2)).
    destruct Hb as (-> & Hpre & Hpost). split; [|split].
    + now rewrite !string_app_assoc.
    + now rewrite occurs_app, Hw1', Hpre.
    + now rewrite occurs_app, Hpost, Hw2'.
  - destruct (extract_json_block_cases (w1 +:+ text +:+ w2))
      as [(pre & body & post & Hb & _)|[_ ->]]; [|reflexivity].
    exfalso. destruct Hb as (Ht & Hpre & Hpost).
    change (lbrace +:+ body +:+ rbrace +:+ post)
      with (String "{"%char (body +:+ rbrace +:+ post)) in Ht.
    apply prefix_split in Ht as (p & -> & Ht); [|assumption].
    assert (text +:+ w2 = (p +:+ lbrace +:+ body) +:+ String "}"%char post) as Ht'
      by (rewrite Ht; now rewrite !string_app_assoc).
    apply suffix_split in Ht' as (q & -> & Ht'); [|assumption].
    rewrite !occurs_app in Hpre, Hpost.
    apply orb_false_iff in Hpre as [_ Hp]. apply orb_false_iff in Hpost as [Hq _].
    apply (Hno p body q). split; [|auto].
    rewrite Ht'. now rewrite !string_app_assoc.
Qed.

Lemma extract_json_block_padding_witness :
  _extract_json_block ("  " +:+ "see {a} here" +:+ newline) = Ok "{a}".
Proof.
  rewrite (extract_json_block_padding "  " "see {a} here" newline);
    vm_compute; reflexivity.
Defined.

(** ** _validate_quiz_schema: which error, and for which count *)

Lemma enumerate_from_lookup (A : Type) (l : list A) (i j k : nat) (x : A) :
  enumerate_from i l !! j = Some (k, x) <-> k = (i + j)%nat /\ l !! j = Some x.
Proof.
  revert i j. induction l as [|y l IH]; intros i j; cbn [enumerate_from].
  - rewrite !lookup_nil. split; [discriminate | intros [_ H]; discriminate].
  - destruct j as [|j]; cbn [lookup list_lookup].
    + split.
      * intros [= <- <-]. split; [lia | reflexivity].
      * intros [-> [= ->]]. do 2 f_equal. lia.
    + rewrite IH. split; intros [-> H]; (split; [lia | exact H]).
Qed.

Lemma check_level_first (d : gmap string pyval) (n_per_level : Z) (level : string) (e : exn) :
  check_level (PDict d) n_per_level level = Raise e ->
  exists msg,
    e = ValueError msg /\ level_violation d n_per_level level msg /\
    forall qs, d !! level = Some (PList qs) -> len qs = n_per_level ->
      exists idx q,
        qs !! idx = Some q /\ question_violation level idx q msg /\
        forall j q', (j < idx)%nat -> qs !! j = Some q' -> question_ok q'.
Proof.
  intros H. destruct (check_level_Raise d n_per_level level e H) as (msg & -> & Hv).
  exists msg. split; [reflexivity|]. split; [exact Hv|].
  intros qs Hqs Hlen. revert H. unfold check_level. rewrite contains_dict, Hqs.
  cbn [bind negb bool_decide decide_rel]. simpl. rewrite Hqs. cbn [bind].
  destruct (Z.eqb_spec (len qs) n_per_level) as [_|Hn]; [|contradiction]. cbn [negb].
  intros H. apply for_each_Raise in H as (l1 & [idx q] & l2 & Hsplit & Hl1 & H).
  apply check_question_Raise in H as (msg' & [= <-] & Hq).
  assert (enumerate qs !! length l1 = Some (idx, q)) as Hat.
  { rewrite Hsplit, lookup_app_r by lia. now rewrite Nat.sub_diag. }
  apply enumerate_from_lookup in Hat as [-> Hat]. cbn [Nat.add] in *.
  exists (length l1), q. split; [exact Hat|]. split; [exact Hq|].
  intros j q' Hj Hq'.
  assert (enumerate qs !! j = Some (j, q')) as Hj'
    by (apply enumerate_from_lookup; auto).
  rewrite Hsplit, lookup_app_l in Hj' by assumption.
  rewrite Forall_forall in Hl1.
  apply (check_question_Ok level (j, q')). apply Hl1.
  apply list_elem_of_lookup. eauto.
Qed.

(** X4.  The error is for the first thing at fault: the levels checked
    before the one reported are well-formed, and when the reported level
    has the right number of questions, the message is about the first
    question of it that breaks the schema. *)
Theorem validate_reports_first (d : gmap string pyval) (n_per_level : Z) (e : exn) :
  _validate_quiz_schema (PDict d) n_per_level = Raise e ->
  exists l1 level l2 msg,
    levels = (l1 ++ level :: l2)%list /\
    Forall (level_ok d n_per_level) l1 /\
    e = ValueError msg /\ level_violation d n_per_level level msg /\
    forall qs, d !! level = Some (PList qs) -> len qs = n_per_level ->
      exists idx q,
        qs !! idx = Some q /\ question_violation level idx q msg /\
        forall j q', (j < idx)%nat -> qs !! j = Some q' -> question_ok q'.
Proof.
  unfold _validate_quiz_schema. intros H.
  apply for_each_Raise in H as (l1 & level & l2 & Hsplit & Hl1 & H).
  apply check_level_first in H as (msg & -> & Hv & Hfirst).
  exists l1, level, l2, msg. split; [exact Hsplit|]. split; [|auto].
  eapply Forall_impl; [exact Hl1|]. intros l Hl. now apply check_level_Ok.
Qed.

(** X5.  Data that is not a dict is never accepted: [None], a bool, a
    number raise [TypeError]; a list or a str raises [TypeError] when it
    contains ["basic"], and the missing-level [ValueError] for ["basic"]
    when it does not. *)
Theorem validate_not_dict_error (data : pyval) (n_per_level : Z) :
  is_dict data = false ->
  _validate_quiz_schema data n_per_level
  = match data with
    | PList l =>
        if existsb (fun x => str_eq x "basic") l then Raise TypeError
        else Raise (ValueError (msg_missing_level "basic"))
    | PStr s =>
        if is_substring "basic" s then Raise TypeError
        else Raise (ValueError (msg_missing_level "basic"))
    | _ => Raise TypeError
    end.
Proof.
  unfold _validate_quiz_schema, levels. cbn [for_each]. unfold check_level at 1.
  destruct data as [| | | |s|l|d]; intros Hd; try discriminate; cbn [contains bind];
    try reflexivity.
  - destruct (is_substring "basic" s); reflexivity.
  - destruct (existsb _ l); reflexivity.
Qed.

Lemma validate_not_dict_error_witness :
  _validate_quiz_schema (PList [PStr "basic"]) 4 = Raise TypeError
  /\ _validate_quiz_schema (PList []) 4 = Raise (ValueError (msg_missing_level "basic"))
  /\ _validate_quiz_schema PNone 4 = Raise TypeError.
Proof.
  split; [|split].
  - exact (validate_not_dict_error (PList [PStr "basic"]) 4 eq_refl).
  - exact (validate_not_dict_error (PList []) 4 eq_refl).
  - exact (validate_not_dict_error PNone 4 eq_refl).
Defined.

(** X6.  A quiz is accepted for one count only, and never for a negative
    one. *)
Theorem validate_count_unique (data : pyval) (n m : Z) :
  _validate_quiz_schema data n = Ok tt ->
  0 <= n /\ (_validate_quiz_schema data m = Ok tt -> m = n).
Proof.
  intros Hn. apply validate_Ok in Hn as (d & -> & Hd).
  destruct (Hd "basic" basic_level) as (qs & Hqs & Hlen & _). split.
  - unfold len in Hlen. lia.
  - intros Hm. apply validate_Ok in Hm as (d' & [= <-] & Hd').
    destruct (Hd' "basic" basic_level) as (qs' & Hqs' & Hlen' & _). congruence.
Qed.

Lemma validate_count_unique_witness :
  0 <= 4 /\ (_validate_quiz_schema example_quiz 3 = Ok tt -> 3 = 4).
Proof.
  apply (validate_count_unique example_quiz 4 3). vm_compute. reflexivity.
Defined.

Lemma total_questions_ok (data : pyval) (n_per_level : Z) :
  quiz_ok data n_per_level -> App.total_questions data = Ok (3 * n_per_level).
Proof.
  intros (d & -> & Hd).
  destruct (Hd "basic") as (q1 & H1 & L1 & _); [apply list_elem_of_In; simpl; tauto|].
  destruct (Hd "intermediate") as (q2 & H2 & L2 & _); [apply list_elem_of_In; simpl; tauto|].
  destruct (Hd "hard") as (q3 & H3 & L3 & _); [apply list_elem_of_In; simpl; tauto|].
  unfold App.total_questions, levels. cbn [for_each_acc getitem].
  rewrite H1. cbn [bind len_of]. rewrite H2. cbn [bind len_of]. rewrite H3.
  cbn [bind len_of]. f_equal. lia.
Qed.

(** X7.  The total the progress tracker and the results page compute for
    an accepted quiz is three times the count per level. *)
Theorem total_questions_validated (data : pyval) (n_per_level : Z) :
  _validate_quiz_schema data n_per_level = Ok tt ->
  App.total_questions data = Ok (3 * n_per_level).
Proof. intros H. apply validate_Ok in H. now apply total_questions_ok. Qed.

Lemma total_questions_validated_witness : App.total_questions example_quiz = Ok (3 * 4).
Proof. apply total_questions_validated. vm_compute. reflexivity. Defined.

Lemma validate_reports_first_witness :
  exists l1 level l2 msg,
    levels = (l1 ++ level :: l2)%list /\
    Forall (level_ok faulty_levels 4) l1 /\
    ValueError (msg_missing_key "intermediate" 1 "explanation") = ValueError msg /\
    level_violation faulty_levels 4 level msg /\
    forall qs, faulty_levels !! level = Some (PList qs) -> len qs = 4 ->
      exists idx q,
        qs !! idx = Some q /\ question_violation level idx q msg /\
        forall j q', (j < idx)%nat -> qs !! j = Some q' -> question_ok q'.
Proof.
  apply (validate_reports_first faulty_levels 4). vm_compute. reflexivity.
Defined.

(** ** evaluate_answers after validation *)

Lemma enumerate_from_length (A : Type) (l : list A) (i : nat) :
  length (enumerate_from i l) = length l.
Proof. revert i. induction l as [|x l IH]; intros i; cbn; [reflexivity | now rewrite IH]. Qed.

Lemma question_ok_typed (q : pyval) : question_ok q -> question_typed q.
Proof.
  intros (d & opts & c & -> & Hk & _ & _ & Hc & _). exists d, c.
  split; [reflexivity|]. split; [exact Hc|].
  split; apply Hk; apply list_elem_of_In; simpl; tauto.
Qed.

Lemma quiz_ok_typed (data : pyval) (n_per_level : Z) :
  quiz_ok data n_per_level -> quiz_typed data.
Proof.
  intros (d & -> & Hd). exists d. split; [reflexivity|]. intros level Hl.
  destruct (Hd level Hl) as (qs & Hqs & _ & Hall). exists qs. split; [exact Hqs|].
  eapply Forall_impl; [exact Hall | apply question_ok_typed].
Qed.

Lemma all_questions_length (data : pyval) (n_per_level : Z) :
  quiz_ok data n_per_level ->
  Z.of_nat (length (all_questions data)) = 3 * n_per_level.
Proof.
  intros (d & -> & Hd).
  destruct (Hd "basic") as (q1 & H1 & L1 & _); [apply list_elem_of_In; simpl; tauto|].
  destruct (Hd "intermediate") as (q2 & H2 & L2 & _); [apply list_elem_of_In; simpl; tauto|].
  destruct (Hd "hard") as (q3 & H3 & L3 & _); [apply list_elem_of_In; simpl; tauto|].
  unfold all_questions, levels. rewrite !questions_in_cons. cbn [questions_of questions_in flat_map].
  rewrite H1, H2, H3, !length_app, !length_map. unfold enumerate.
  rewrite !enumerate_from_length. unfold len in *. cbn [length]. lia.
Qed.

Lemma letter_normalized (c : string) :
  c ∈ option_keys -> normalize c = c /\ c <> "".
Proof.
  intros H. apply list_elem_of_In in H. simpl in H.
  destruct H as [<-|[<-|[<-|[<-|[]]]]]; split; (reflexivity || discriminate).
Qed.

Lemma filter_none (A : Type) (f : A -> bool) (l : list A) :
  (forall x, x ∈ l -> f x = false) -> List.filter f l = [].
Proof.
  induction l as [|x l IH]; intros H; [reflexivity|]. cbn [List.filter].
  rewrite (H x) by left. apply IH. intros y Hy. apply H. now right.
Qed.

Lemma all_questions_elem (quiz : pyval) (level : string) (i : nat) (q : pyval) :
  (level, (i, q)) ∈ all_questions quiz <->
  level ∈ levels /\ questions_of quiz level !! i = Some q.
Proof.
  unfold all_questions, questions_in. rewrite list_elem_of_In, in_flat_map. split.
  - intros (l & Hl & Hin). apply in_map_iff in Hin as ([i' q'] & [= -> -> ->] & Hin).
    split; [now apply list_elem_of_In|]. apply enumerate_elem. now apply list_elem_of_In.
  - intros [Hl Hq]. exists level. split; [now apply list_elem_of_In|].
    apply in_map_iff. exists (i, q). split; [reflexivity|].
    apply list_elem_of_In. now apply enumerate_elem.
Qed.

(** A question of an accepted quiz, its letter, and what an unanswered
    question is told. *)
Lemma validated_question (data : pyval) (n_per_level : Z) (level : string)
    (i : nat) (q : pyval) :
  quiz_ok data n_per_level -> (level, (i, q)) ∈ all_questions data ->
  exists c, getitem q "correct" = Ok (PStr c) /\ c ∈ option_keys /\
            correct_letter_of q = c.
Proof.
  intros (d & -> & Hd) [Hl Hq]%all_questions_elem.
  destruct (Hd level Hl) as (qs & Hqs & _ & Hall). cbn [questions_of] in Hq.
  rewrite Hqs in Hq. rewrite Forall_forall in Hall.
  destruct (Hall q) as (qd & opts & c & -> & _ & _ & _ & Hc & Hin);
    [apply list_elem_of_lookup; eauto|].
  exists c. cbn [getitem]. rewrite Hc. split; [reflexivity|]. split; [exact Hin|].
  unfold correct_letter_of, field. rewrite Hc. cbn [default from_option id str_of].
  now apply letter_normalized.
Qed.

Lemma unanswered_wrong (data : pyval) (n_per_level : Z) (ua : gmap string pyval)
    (level : string) (i : nat) (q : pyval) :
  quiz_ok data n_per_level -> (level, (i, q)) ∈ all_questions data ->
  ua !! answer_key level i = None ->
  is_right ua (level, (i, q)) = false.
Proof.
  intros Hok Hin Hnone.
  destruct (validated_question data n_per_level level i q Hok Hin) as (c & _ & Hc & Heq).
  unfold is_right, recorded. cbn [fst snd]. rewrite Hnone, Heq.
  cbn [default from_option id str_of]. apply letter_normalized in Hc as [_ Hne].
  apply String.eqb_neq. intros H. apply Hne. rewrite <- H. reflexivity.
Qed.

(** X8.  On a quiz the validator accepted for [n] and an answer map of
    strings the evaluator returns, with [3 * n] feedback entries and a
    score between [0] and [3 * n]. *)
Theorem evaluate_validated (ua : gmap string pyval) (data : pyval) (n_per_level : Z) :
  _validate_quiz_schema data n_per_level = Ok tt -> answers_typed ua ->
  exists (score : Z) (feedback : list pyval),
    evaluate_answers ua data = Ok (score, feedback) /\
    0 <= score <= 3 * n_per_level /\
    Z.of_nat (length feedback) = 3 * n_per_level.
Proof.
  intros Hval Hua. apply validate_Ok in Hval.
  eexists _, _. split; [apply evaluate_answers_typed; eauto using quiz_ok_typed|].
  rewrite length_map, <- (all_questions_length data n_per_level Hval).
  split; [|reflexivity].
  pose proof (filter_length_le (is_right ua) (all_questions data)). lia.
Qed.

Lemma evaluate_validated_witness :
  exists (score : Z) (feedback : list pyval),
    evaluate_answers lower_case_answer example_quiz = Ok (score, feedback) /\
    0 <= score <= 3 * 4 /\ Z.of_nat (length feedback) = 3 * 4.
Proof.
  apply (evaluate_validated lower_case_answer example_quiz 4).
  - vm_compute. reflexivity.
  - exact (answers_typed_insert ∅ "basic_0" " a " answers_typed_empty).
Defined.

(** X9.  In a quiz the validator accepted, a question with no recorded
    answer is always reported wrong, with its stored letter as it is; and
    with no answer recorded at all the score is [0]. *)
Theorem unanswered_validated (ua : gmap string pyval) (data : pyval) (n_per_level : Z) :
  _validate_quiz_schema data n_per_level = Ok tt -> answers_typed ua ->
  exists (score : Z) (feedback : list pyval),
    evaluate_answers ua data = Ok (score, feedback) /\
    (forall k level i q,
       all_questions data !! k = Some (level, (i, q)) ->
       ua !! answer_key level i = None ->
       exists entry c,
         feedback !! k = Some entry /\
         getitem q "correct" = Ok (PStr c) /\
         getitem entry "result" = Ok (PStr ("Wrong (Correct: " +:+ c +:+ ")"))) /\
    (ua = ∅ -> score = 0).
Proof.
  intros Hval Hua. apply validate_Ok in Hval.
  eexists _, _. split; [apply evaluate_answers_typed; eauto using quiz_ok_typed|]. split.
  - intros k level i q Hk Hnone.
    assert ((level, (i, q)) ∈ all_questions data) as Hin
      by (apply list_elem_of_lookup; eauto).
    destruct (validated_question data n_per_level level i q Hval Hin) as (c & Hc & _ & Heq).
    exists (entry_for ua (level, (i, q))), c.
    rewrite list_lookup_fmap, Hk. split; [reflexivity|]. split; [exact Hc|].
    unfold entry_for, feedback_entry, verdict. cbn [getitem snd].
    rewrite (unanswered_wrong data n_per_level ua level i q Hval Hin Hnone), Heq.
    repeat (rewrite lookup_insert_eq || rewrite lookup_insert_ne by discriminate).
    reflexivity.
  - intros ->. rewrite filter_none; [reflexivity|].
    intros [level [i q]] Hin.
    apply (unanswered_wrong data n_per_level ∅ level i q Hval Hin). apply lookup_empty.
Qed.

Lemma unanswered_validated_witness :
  exists (score : Z) (feedback : list pyval),
    evaluate_answers ∅ example_quiz = Ok (score, feedback) /\ score = 0.
Proof.
  destruct (unanswered_validated ∅ example_quiz 4) as (score & feedback & He & _ & Hs).
  - vm_compute. reflexivity.
  - exact answers_typed_empty.
  - exists score, feedback. split; [exact He | now apply Hs].
Defined.

(** ** evaluate_answers: what it reads *)

Lemma for_each_acc_ext {A S : Type} (l : list A) (body body' : A -> S -> result S) :
  (forall x, x ∈ l -> forall s, body x s = body' x s) ->
  forall s, for_each_acc l body s = for_each_acc l body' s.
Proof.
  induction l as [|x l IH]; intros H s; [reflexivity|]. cbn [for_each_acc].
  rewrite (H x) by left. destruct (body' x s); cbn [bind]; [|reflexivity].
  apply IH. intros y Hy. apply H. now right.
Qed.

Lemma for_each_acc_app {A S : Type} (l1 l2 : list A) (body : A -> S -> result S) (s : S) :
  for_each_acc (l1 ++ l2) body s = bind (for_each_acc l1 body s) (for_each_acc l2 body).
Proof.
  revert s. induction l1 as [|x l1 IH]; intros s; [reflexivity|].
  cbn [app for_each_acc]. destruct (body x s); cbn [bind]; [apply IH | reflexivity].
Qed.

Lemma evaluate_question_same_key (ua ua' : gmap string pyval) (level : string)
    (i : nat) (q : pyval) (acc : Z * list pyval) :
  ua !! answer_key level i = ua' !! answer_key level i ->
  evaluate_question ua level (i, q) acc = evaluate_question ua' level (i, q) acc.
Proof. intros H. unfold evaluate_question. cbn [fst snd]. now rewrite H. Qed.

(** X10.  Of the answer map the evaluator reads only the keys
    [level_i] of the questions the quiz has: two maps that agree on those
    give the same outcome, on any quiz. *)
Theorem evaluate_answers_reads_question_keys (ua ua' : gmap string pyval) (quiz : pyval) :
  (forall level i,
     level ∈ levels -> (i < length (questions_of quiz level))%nat ->
     ua !! answer_key level i = ua' !! answer_key level i) ->
  evaluate_answers ua quiz = evaluate_answers ua' quiz.
Proof.
  intros H. unfold evaluate_answers. apply for_each_acc_ext. intros level Hl acc.
  unfold evaluate_level. destruct (getitem quiz level) as [v|e] eqn:Hv; cbn [bind];
    [|reflexivity].
  destruct v as [| | | |s|qs|d]; cbn [iterate bind]; try reflexivity.
  - apply for_each_acc_ext. intros [i q] Hiq acc'.
    apply enumerate_elem, list_lookup_fmap_Some in Hiq as (c & -> & _). reflexivity.
  - apply for_each_acc_ext. intros [i q] Hiq acc'. apply evaluate_question_same_key.
    apply H; [exact Hl|]. apply enumerate_elem in Hiq.
    destruct quiz as [| | | | | |qd]; try discriminate. cbn [getitem] in Hv.
    cbn [questions_of]. destruct (qd !! level) as [v|]; [|discriminate].
    injection Hv as ->. eapply lookup_lt_Some. exact Hiq.
  - apply for_each_acc_ext. intros [i q] Hiq acc'.
    apply enumerate_elem, list_lookup_fmap_Some in Hiq as (c & -> & _). reflexivity.
Qed.

Lemma evaluate_answers_reads_question_keys_witness :
  evaluate_answers (<["basic_7" := PNone]> first_answered) two_question_quiz
  = evaluate_answers first_answered two_question_quiz.
Proof.
  apply evaluate_answers_reads_question_keys.
  intros level i Hl. revert i. revert level Hl.
  apply (level_cases (fun level => forall i,
           (i < length (questions_of two_question_quiz level))%nat -> _ = _)).
  - intros i Hi. rewrite lookup_insert_ne; [reflexivity|].
    destruct i as [|[|i]]; [discriminate | discriminate | vm_compute in Hi; lia].
  - intros i Hi. vm_compute in Hi. lia.
  - intros i Hi. vm_compute in Hi. lia.
Defined.

(** X11.  No two questions share an answer key: over the three levels
    the key [level_i] determines the level and the index. *)
Theorem answer_key_inj (level level' : string) (i i' : nat) :
  level ∈ levels -> level' ∈ levels ->
  answer_key level i = answer_key level' i' ->
  level = level' /\ i = i'.
Proof.
  intros Hl Hl'. revert level Hl level' Hl'. unfold answer_key, str_of_index.
  apply (level_cases (fun level => forall level', level' ∈ levels ->
           level +:+ "_" +:+ pretty i = level' +:+ "_" +:+ pretty i' ->
           level = level' /\ i = i'));
    apply (level_cases (fun level' => _ +:+ "_" +:+ pretty i = level' +:+ "_" +:+ pretty i' ->
           _ = level' /\ i = i'));
    intros H; rewrite ?string_app_cons in H; try discriminate;
    (split; [reflexivity|]);
    repeat (injection H as H); rewrite ?string_app_nil_l in H;
    repeat (injection H as H); now apply pretty_nat_inj in H.
Qed.

Lemma answer_key_inj_witness : "basic" = "basic" /\ 3%nat = 3%nat.
Proof.
  apply (answer_key_inj "basic" "basic" 3 3 basic_level basic_level). reflexivity.
Defined.

(** X12.  A quiz that lacks a level makes the evaluator raise [KeyError]
    for the first level it lacks, the levels before it being evaluated
    first. *)
Theorem evaluate_missing_level (ua : gmap string pyval) (d : gmap string pyval)
    (l1 l2 : list string) (level : string) :
  levels = (l1 ++ level :: l2)%list -> answers_typed ua ->
  (forall l, l ∈ l1 -> exists qs, d !! l = Some (PList qs) /\ Forall question_typed qs) ->
  d !! level = None ->
  evaluate_answers ua (PDict d) = Raise (KeyError level).
Proof.
  intros Hsplit Hua Hl1 Hnone. unfold evaluate_answers. rewrite Hsplit, for_each_acc_app.
  rewrite (evaluate_levels_typed ua d l1 (0, []) Hua Hl1). cbn [bind for_each_acc].
  unfold evaluate_level at 1. cbn [getitem]. rewrite Hnone. reflexivity.
Qed.

Lemma evaluate_missing_level_witness :
  evaluate_answers first_answered (PDict two_level_quiz) = Raise (KeyError "hard").
Proof.
  apply (evaluate_missing_level first_answered two_level_quiz ["basic"; "intermediate"] []).
  - reflexivity.
  - exact (answers_typed_insert ∅ "basic_0" "A" answers_typed_empty).
  - intros l Hl. apply list_elem_of_In in Hl. simpl in Hl.
    destruct Hl as [<-|[<-|[]]]; eexists; (split; [vm_compute; reflexivity|]);
      repeat constructor; apply example_question_typed.
  - vm_compute. reflexivity.
Defined.

(** ** Trimming and uppercasing *)

Lemma isspace_upper_char (c : ascii) : isspace (upper_char c) = isspace c.
Proof. destruct c as [[] [] [] [] [] [] [] []]; reflexivity. Qed.

Lemma upper_char_idem (c : ascii) : upper_char (upper_char c) = upper_char c.
Proof. destruct c as [[] [] [] [] [] [] [] []]; reflexivity. Qed.

Lemma upper_idem (s : string) : upper (upper s) = upper s.
Proof.
  induction s as [|c s IH]; [reflexivity|]. cbn [upper].
  now rewrite upper_char_idem, IH.
Qed.

Lemma all_space_upper (s : string) : all_space (upper s) = all_space s.
Proof.
  induction s as [|c s IH]; [reflexivity|]. cbn [upper all_space].
  now rewrite isspace_upper_char, IH.
Qed.

Lemma lstrip_upper (s : string) : lstrip (upper s) = upper (lstrip s).
Proof.
  induction s as [|c s IH]; [reflexivity|]. cbn [upper lstrip].
  rewrite isspace_upper_char. destruct (isspace c); [exact IH | reflexivity].
Qed.

Lemma rstrip_upper (s : string) : rstrip (upper s) = upper (rstrip s).
Proof.
  induction s as [|c s IH]; [reflexivity|].
  change (upper (String c s)) with (String (upper_char c) (upper s)).
  cbn [rstrip]. change (String (upper_char c) (upper s)) with (upper (String c s)).
  rewrite all_space_upper. destruct (all_space (String c s)); [reflexivity|].
  cbn [upper]. now rewrite IH.
Qed.

Lemma strip_upper (s : string) : strip (upper s) = upper (strip s).
Proof. unfold strip. now rewrite lstrip_upper, rstrip_upper. Qed.

Lemma rstrip_idem (s : string) : rstrip (rstrip s) = rstrip s.
Proof.
  induction s as [|c s IH]; [reflexivity|]. cbn [rstrip].
  destruct (all_space (String c s)) eqn:Hs; [reflexivity|].
  cbn [rstrip]. assert (all_space (String c (rstrip s)) = false) as ->.
  { cbn [all_space] in *. destruct (isspace c); [|reflexivity]. cbn [andb] in *.
    now apply all_space_rstrip. }
  now rewrite IH.
Qed.

Lemma lstrip_rstrip_lstrip (s : string) : lstrip (rstrip (lstrip s)) = rstrip (lstrip s).
Proof.
  induction s as [|c s IH]; [reflexivity|]. cbn [lstrip].
  destruct (isspace c) eqn:Hc; [exact IH|].
  cbn [rstrip all_space]. rewrite Hc. cbn [andb lstrip]. now rewrite Hc.
Qed.

Lemma strip_idem (s : string) : strip (strip s) = strip s.
Proof. unfold strip. now rewrite lstrip_rstrip_lstrip, rstrip_idem. Qed.

Lemma normalize_idem (s : string) : normalize (normalize s) = normalize s.
Proof. unfold normalize. now rewrite strip_upper, upper_idem, strip_idem. Qed.

(** X13.  Trimming and uppercasing the recorded answers beforehand
    changes nothing: the evaluator gives the same outcome, on any quiz and
    any answer map. *)
Theorem evaluate_answers_normalized (ua : gmap string pyval) (quiz : pyval) :
  evaluate_answers (normalize_value <$> ua) quiz = evaluate_answers ua quiz.
Proof.
  unfold evaluate_answers. apply for_each_acc_ext. intros level _ acc.
  unfold evaluate_level. destruct (getitem quiz level) as [v|e]; cbn [bind]; [|reflexivity].
  destruct (iterate v) as [qs|e]; cbn [bind]; [|reflexivity].
  apply for_each_acc_ext. intros [i q] _ acc'. unfold evaluate_question. cbn [fst snd].
  destruct (getitem q "correct") as [c|e]; cbn [bind]; [|reflexivity].
  destruct (method_strip c) as [cs|e]; cbn [bind]; [|reflexivity].
  rewrite lookup_fmap. destruct (ua !! answer_key level i) as [a|]; [|reflexivity].
  destruct a; try reflexivity.
  cbn [fmap option_fmap option_map normalize_value default from_option id method_strip bind].
  fold (normalize (normalize s)). fold (normalize s). now rewrite normalize_idem.
Qed.

(** ** generate_quiz_from_text and its parser *)

(** X14.  [json.loads] is only ever given a text that opens with a brace
    and closes with one: two parsers that agree on such texts give the same
    outcome. *)
Theorem generate_quiz_parses_blocks
    (chain_run : string -> spec_float -> Z -> string -> string -> result string)
    (json_loads json_loads' : string -> result pyval)
    (content : string) (questions_per_level : Z)
    (model_name : string) (temperature : spec_float) :
  (forall body,
     json_loads (lbrace +:+ body +:+ rbrace) = json_loads' (lbrace +:+ body +:+ rbrace)) ->
  generate_quiz_from_text chain_run json_loads content questions_per_level
    model_name temperature
  = generate_quiz_from_text chain_run json_loads' content questions_per_level
      model_name temperature.
Proof.
  intros H. unfold generate_quiz_from_text.
  destruct (chain_run _ _ _ _ _) as [raw|e]; cbn [bind]; [|reflexivity].
  destruct (extract_json_block_cases raw) as [(pre & body & post & _ & ->)|[_ ->]];
    cbn [bind]; [|reflexivity].
  now rewrite H.
Qed.

Lemma generate_quiz_parses_blocks_witness :
  generate_quiz_from_text example_chain example_loads "study material" 4
    App.default_model_name App.default_temperature
  = generate_quiz_from_text example_chain braces_only_loads "study material" 4
      App.default_model_name App.default_temperature.
Proof.
  apply generate_quiz_parses_blocks. intros body. reflexivity.
Defined.

(** ** extract_text_from_pdf: a page that cannot be read *)

(** X15.  When a page raises, the pages before it having given their
    text, the whole extraction raises that exception: no partial text is
    returned. *)
Theorem extract_text_page_error (pdf : Type)
    (PdfReader : pdf -> result (list (result string)))
    (file : pdf) (texts : list string) (e : exn) (rest : list (result string)) :
  PdfReader file = Ok (map Ok texts ++ Raise e :: rest)%list ->
  extract_text_from_pdf pdf PdfReader file = Raise e.
Proof.
  intros Hr. unfold extract_text_from_pdf, extract_pages. rewrite Hr. cbn [bind].
  rewrite for_each_acc_app, extract_pages_acc. reflexivity.
Qed.

Lemma extract_text_page_error_witness :
  extract_text_from_pdf unit broken_page_reader tt
  = Raise (ExternalError "unreadable page").
Proof.
  apply (extract_text_page_error unit broken_page_reader tt ["Intro"] _ [Ok "Body"]).
  reflexivity.
Defined.

(** ** The session around the pipeline *)

Lemma union_absorb (m n : gmap string pyval) : m ∪ (m ∪ n) = m ∪ n.
Proof.
  apply map_eq. intros i. rewrite !lookup_union.
  destruct (m !! i), (n !! i); reflexivity.
Qed.

Lemma generate_Ok_validated
    (chain_run : string -> spec_float -> Z -> string -> string -> result string)
    (json_loads : string -> result pyval)
    (content : string) (n : Z) (model_name : string) (temperature : spec_float)
    (data : pyval) :
  generate_quiz_from_text chain_run json_loads content n model_name temperature = Ok data ->
  _validate_quiz_schema data n = Ok tt.
Proof.
  unfold generate_quiz_from_text. intros H.
  apply bind_Ok_inv in H as (raw & _ & H).
  apply bind_Ok_inv in H as (json_str & _ & H).
  apply bind_Ok_inv in H as (data' & _ & H).
  apply bind_Ok_inv in H as ([] & Hval & [= ->]). exact Hval.
Qed.

Lemma evaluate_empty_validated (data : pyval) (n_per_level : Z) :
  quiz_ok data n_per_level ->
  evaluate_answers ∅ data = Ok (0, map (entry_for ∅) (all_questions data)).
Proof.
  intros Hok.
  rewrite (evaluate_answers_typed ∅ data (quiz_ok_typed _ _ Hok) answers_typed_empty).
  rewrite filter_none; [reflexivity|]. intros [level [i q]] Hin.
  apply (unanswered_wrong data n_per_level ∅ level i q Hok Hin). apply lookup_empty.
Qed.


(** X17.  Finishing keeps the quiz, the locks, the banner and the
    widgets, stores the outcome of the evaluator on the synchronized
    answers, and finishing again changes nothing. *)
Theorem finish_idempotent (st st' : App.session_state) :
  App.finish st = Ok st' ->
  App.quiz_data st' = App.quiz_data st
  /\ App.submitted_q st' = App.submitted_q st
  /\ App.material_info st' = App.material_info st
  /\ App.widget_values st' = App.widget_values st
  /\ App.user_answers st' = App.user_answers (App.sync_user_answers st)
  /\ (exists r, App.results_cache st' = Some r /\
                evaluate_answers (App.user_answers st') (App.quiz_data st') = Ok r)
  /\ App.finish st' = Ok st'.
Proof.
  unfold App.finish. intros H.
  apply bind_Ok_inv in H as (r & Hr & [= <-]).
  cbn [App.sync_user_answers App.quiz_data App.user_answers App.submitted_q
       App.results_cache App.material_info App.widget_values] in *.
  repeat (split; [reflexivity|]). split; [exists r; auto|].
  unfold App.session_get in *. cbn [App.widget_values] in *.
  rewrite union_absorb, Hr. reflexivity.
Qed.

Lemma finish_idempotent_witness :
  exists st', App.finish answered_session = Ok st' /\ App.finish st' = Ok st'.
Proof.
  destruct (App.finish answered_session) as [st'|e] eqn:H; [|vm_compute in H; discriminate].
  exists st'. split; [reflexivity|].
  exact (proj2 (proj2 (proj2 (proj2 (proj2 (proj2
           (finish_idempotent answered_session st' H))))))).
Defined.

Section PipelineRuns.

Context {pdf : Type}.
Context (PdfReader : pdf -> result (list (result string))).
Context (split_text : Z -> Z -> string -> result (list string)).
Context (chain_run : string -> spec_float -> Z -> string -> string -> result string).
Context (json_loads : string -> result pyval).

Abbreviation pipeline := (App.generate_pipeline pdf PdfReader split_text chain_run json_loads).
Abbreviation extraction := (App.extraction_step pdf PdfReader split_text).

(** X18.  When the PDF gives no text but white space, the local
    [material] is never bound: the run ends with an uncaught [NameError]
    at [if material:], the session state untouched. *)
Theorem blank_text_name_error (sb : App.sidebar pdf) (file : pdf)
    (st : App.session_state) (text : string) :
  App.pdf_file sb = Some file ->
  extract_text_from_pdf pdf PdfReader file = Ok text -> strip text = "" ->
  pipeline true sb st
  = {| App.run_sidebar := sb; App.run_session := st;
       App.run_uncaught := Some (NameError "material") |}.
Proof.
  intros Hfile Htext Hblank. unfold App.generate_pipeline, App.extraction_step.
  rewrite Hfile, Htext, Hblank. reflexivity.
Qed.

(** X19.  The model is given the first three chunks at most, joined by
    spaces, whatever the number of chunks, and the banner reports that
    number; when the splitter returns no chunk, nothing is generated and
    nothing is reported: the run only replaces the banner. *)
Theorem material_is_first_three_chunks (sb : App.sidebar pdf) (file : pdf)
    (st : App.session_state) (text : string) (chunks : list string) :
  App.pdf_file sb = Some file ->
  extract_text_from_pdf pdf PdfReader file = Ok text -> truthy (strip text) = true ->
  chunk_text split_text text (App.chunk_size sb) (App.chunk_overlap sb) = Ok chunks ->
  extraction sb file st
  = (Some (join " " (take 3 chunks)),
     App.set_material_info st (App.material_banner chunks))
  /\ (chunks = [] ->
      pipeline true sb st
      = {| App.run_sidebar := sb;
           App.run_session := App.set_material_info st (App.material_banner []);
           App.run_uncaught := None |}).
Proof.
  intros Hfile Htext Htruthy Hchunks.
  assert (extraction sb file st
          = (Some (join " " (take 3 chunks)),
             App.set_material_info st (App.material_banner chunks))) as Hex.
  { unfold App.extraction_step. rewrite Htext, Htruthy, Hchunks. cbn [negb].
    destruct (Z.ltb_spec 3 (Z.of_nat (length chunks))); [reflexivity|].
    rewrite firstn_all2 by lia. reflexivity. }
  split; [exact Hex|]. intros ->. unfold App.generate_pipeline.
  rewrite Hfile, Hex. reflexivity.
Qed.

(** X20.  After a successful generation the session holds the quiz the
    validator accepted for the sidebar's count, with no answers, no locks
    and no results; its total is three times that count; and finishing at
    once evaluates without error to a score of [0] with one entry per
    question. *)
Theorem generation_success (sb : App.sidebar pdf) (file : pdf)
    (st : App.session_state) (material : string) (quiz : pyval) :
  App.pdf_file sb = Some file ->
  fst (extraction sb file st) = Some material -> truthy material = true ->
  generate_quiz_from_text chain_run json_loads material (App.n_per_level sb)
    App.default_model_name App.default_temperature = Ok quiz ->
  let r := pipeline true sb st in
  let st' :=
    {| App.quiz_data := quiz;
       App.user_answers := ∅;
       App.submitted_q := ∅;
       App.results_cache := None;
       App.material_info := App.material_info (snd (extraction sb file st));
       App.widget_values := App.widget_values st |} in
  App.run_uncaught r = None /\ App.run_session r = st'
  /\ _validate_quiz_schema quiz (App.n_per_level sb) = Ok tt
  /\ App.total_questions quiz = Ok (3 * App.n_per_level sb)
  /\ exists feedback,
       Z.of_nat (length feedback) = 3 * App.n_per_level sb /\
       App.finish st'
       = Ok {| App.quiz_data := quiz;
               App.user_answers := ∅;
               App.submitted_q := ∅;
               App.results_cache := Some (0, feedback);
               App.material_info := App.material_info (snd (extraction sb file st));
               App.widget_values := App.widget_values st |}.
Proof.
  intros Hfile Hm Htruthy Hgen r st'. subst r st'.
  pose proof (generate_Ok_validated _ _ _ _ _ _ _ Hgen) as Hval.
  unfold App.generate_pipeline, App.generation_step. rewrite Hfile, Hm, Htruthy, Hgen.
  cbn [fst snd App.run_uncaught App.run_session].
  split; [reflexivity|]. split.
  { unfold App.store_quiz.
    destruct (extraction_step_frame PdfReader split_text sb file st) as (_ & _ & _ & _ & Hwv).
    now rewrite Hwv. }
  split; [exact Hval|]. apply validate_Ok in Hval.
  split; [now apply total_questions_ok|].
  exists (map (entry_for ∅) (all_questions quiz)).
  split; [rewrite length_map; now apply all_questions_length|].
  unfold App.finish.
  cbn [App.sync_user_answers App.quiz_data App.user_answers App.submitted_q
       App.results_cache App.material_info App.widget_values].
  rewrite map_imap_empty, (left_id_L ∅ (∪)).
  rewrite (evaluate_empty_validated quiz _ Hval). reflexivity.
Qed.

End PipelineRuns.

Lemma blank_text_name_error_witness :
  App.generate_pipeline unit blank_page_reader one_chunk_splitter example_chain
    example_loads true example_sidebar session_in_progress
  = {| App.run_sidebar := example_sidebar; App.run_session := session_in_progress;
       App.run_uncaught := Some (NameError "material") |}.
Proof.
  apply (blank_text_name_error blank_page_reader one_chunk_splitter example_chain
           example_loads example_sidebar tt session_in_progress "   ");
    vm_compute; reflexivity.
Defined.

Lemma material_is_first_three_chunks_witness :
  App.extraction_step unit one_page_reader five_chunk_splitter example_sidebar tt
    session_in_progress
  = (Some "one two three",
     App.set_material_info session_in_progress
       "Using 5 chunks. Sent 3 chunk(s) to the model.").
Proof.
  destruct (material_is_first_three_chunks one_page_reader five_chunk_splitter
              example_chain example_loads example_sidebar tt session_in_progress
              "Photosynthesis turns light into sugar."
              ["one"; "two"; "three"; "four"; "five"]) as [H _];
    [vm_compute; reflexivity..|].
  rewrite H. vm_compute. reflexivity.
Defined.

Lemma generation_success_witness :
  App.run_uncaught
    (App.generate_pipeline unit one_page_reader one_chunk_splitter example_chain
       example_loads true four_per_level_sidebar session_in_progress) = None
  /\ App.total_questions example_quiz = Ok (3 * 4).
Proof.
  destruct (generation_success one_page_reader one_chunk_splitter example_chain
              example_loads four_per_level_sidebar tt session_in_progress
              "Photosynthesis turns light into sugar." example_quiz)
    as (Hun & _ & _ & Htotal & _); [vm_compute; reflexivity..|].
  split; [exact Hun | exact Htotal].
Defined.

(** ** Prose around the object, and a perfect score *)

(** X21.  When the model wraps the object in prose, with no opening
    brace before it and no closing brace after it, the quiz is what
    [json.loads] makes of the object alone, validated. *)
Theorem generate_quiz_ignores_prose
    (chain_run : string -> spec_float -> Z -> string -> string -> result string)
    (json_loads : string -> result pyval)
    (content : string) (questions_per_level : Z)
    (model_name : string) (temperature : spec_float) (pre body post : string) :
  chain_run model_name temperature questions_per_level content
    (str_of_int questions_per_level)
  = Ok (pre +:+ lbrace +:+ body +:+ rbrace +:+ post) ->
  occurs "{"%char pre = false -> occurs "}"%char post = false ->
  generate_quiz_from_text chain_run json_loads content questions_per_level
    model_name temperature
  = (let* data := json_loads (lbrace +:+ body +:+ rbrace) in
     let* _ := _validate_quiz_schema data questions_per_level in
     Ok data).
Proof.
  intros Hraw Hpre Hpost. unfold generate_quiz_from_text. rewrite Hraw. cbn [bind].
  now rewrite extract_json_block_found.
Qed.

Lemma generate_quiz_ignores_prose_witness :
  generate_quiz_from_text example_chain example_loads "study material" 4
    App.default_model_name App.default_temperature
  = Ok example_quiz.
Proof.
  rewrite (generate_quiz_ignores_prose example_chain example_loads "study material" 4
             App.default_model_name App.default_temperature
             "Here is your quiz: " "example quiz" " Good luck!");
    vm_compute; reflexivity.
Defined.

Lemma filter_all (A : Type) (f : A -> bool) (l : list A) :
  (forall x, x ∈ l -> f x = true) -> List.filter f l = l.
Proof.
  induction l as [|x l IH]; intros H; [reflexivity|]. cbn [List.filter].
  rewrite (H x) by left. f_equal. apply IH. intros y Hy. apply H. now right.
Qed.

(** X22.  In a quiz the validator accepted for [n], when the recorded
    answer of every question is, trimmed and uppercased, its correct
    letter, the score is [3 * n] and every entry says [Correct]. *)
Theorem evaluate_all_correct (ua : gmap string pyval) (data : pyval) (n_per_level : Z) :
  _validate_quiz_schema data n_per_level = Ok tt -> answers_typed ua ->
  (forall level i q,
     (level, (i, q)) ∈ all_questions data ->
     exists a, ua !! answer_key level i = Some (PStr a) /\
               getitem q "correct" = Ok (PStr (upper (strip a)))) ->
  exists feedback,
    evaluate_answers ua data = Ok (3 * n_per_level, feedback) /\
    Z.of_nat (length feedback) = 3 * n_per_level /\
    forall entry, entry ∈ feedback -> getitem entry "result" = Ok (PStr "Correct").
Proof.
  intros Hval Hua Hall. apply validate_Ok in Hval.
  assert (forall x, x ∈ all_questions data -> is_right ua x = true) as Hright.
  { intros [level [i q]] Hin. destruct (Hall level i q Hin) as (a & Ha & Hc).
    destruct (validated_question data n_per_level level i q Hval Hin) as (c & Hc' & _ & Heq).
    unfold is_right, recorded. cbn [fst snd]. rewrite Ha, Heq.
    cbn [default from_option id str_of]. apply String.eqb_eq. unfold normalize. congruence. }
  exists (map (entry_for ua) (all_questions data)).
  rewrite (evaluate_answers_typed ua data (quiz_ok_typed _ _ Hval) Hua).
  rewrite (filter_all _ _ _ Hright), length_map, (all_questions_length data n_per_level Hval).
  split; [reflexivity|]. split; [reflexivity|].
  intros entry Hentry. apply list_elem_of_fmap in Hentry as (x & -> & Hx).
  unfold entry_for, feedback_entry, verdict. rewrite (Hright x Hx). cbn [getitem].
  repeat (rewrite lookup_insert_eq || rewrite lookup_insert_ne by discriminate).
  reflexivity.
Qed.

Lemma evaluate_all_correct_witness :
  exists feedback,
    evaluate_answers all_answered one_per_level_quiz = Ok (3 * 1, feedback) /\
    Z.of_nat (length feedback) = 3 * 1 /\
    forall entry, entry ∈ feedback -> getitem entry "result" = Ok (PStr "Correct").
Proof.
  apply (evaluate_all_correct all_answered one_per_level_quiz 1).
  - vm_compute. reflexivity.
  - repeat apply answers_typed_insert. exact answers_typed_empty.
  - intros level i q Hin. apply list_elem_of_In in Hin. vm_compute in Hin.
    destruct Hin as [[= <- <- <-]|[[= <- <- <-]|[[= <- <- <-]|[]]]];
      eexists; (split; vm_compute; reflexivity).
Defined.
